(** * MapServerMCP: the tool dispatcher, the map servers and the agent loop

    A shallow embedding of [agent_tools.py], [agent.py] and the parts of
    [servers/core_map_server.py] and [servers/history_map_server.py] that
    decide how a tool request is routed and answered.

    Python values are JSON values; a Python exception is an explicit
    outcome; everything that talks to the outside (the completion endpoint,
    the HTTP back ends, the prompt file) is a computation over an abstract
    [World]. *)

From Stdlib Require Import String Ascii List ZArith Bool Lia Permutation.
From Stdlib Require Import DecimalString Sorted.
Import ListNotations.

Set Warnings "-register-all".

Open Scope string_scope.
Open Scope list_scope.

(* ================================================================== *)
(** ** Python values and exceptions *)

Module Py.

(** What [json.loads] produces and what the handlers return.  A float is
    carried by its [repr] text; no arithmetic on floats is modelled. *)
Inductive json : Type :=
| JNull
| JBool (b : bool)
| JInt (z : Z)
| JFloat (repr : string)
| JStr (s : string)
| JArr (items : list json)
| JObj (fields : list (string * json)).

(** The exceptions the modelled code can see. *)
Inductive exn : Type :=
| KeyError (key : string)
| TypeError
| AttributeError
| JSONDecodeError
| OSError
| APIError (message : string).

(** The result of running a piece of Python: a value, a raised exception,
    or [Unfinished] when the fuel given to the [while] loop ran out. *)
Inductive outcome (A : Type) : Type :=
| Return (a : A)
| Raise (e : exn)
| Unfinished.

Arguments Return {A} a.
Arguments Raise {A} e.
Arguments Unfinished {A}.

Definition obind {A B} (o : outcome A) (k : A -> outcome B) : outcome B :=
  match o with
  | Return a => k a
  | Raise e => Raise e
  | Unfinished => Unfinished
  end.

(** A dict is an association list in insertion order; the first binding of
    a key is the one that counts. *)
Fixpoint dict_get {V} (d : list (string * V)) (k : string) : option V :=
  match d with
  | [] => None
  | (k', v) :: rest => if String.eqb k' k then Some v else dict_get rest k
  end.

(** [arguments[k]] *)
Definition getitem (arguments : json) (k : string) : outcome json :=
  match arguments with
  | JObj d =>
      match dict_get d k with
      | Some v => Return v
      | None => Raise (KeyError k)
      end
  | _ => Raise TypeError
  end.

(** [arguments.get(k, default)] *)
Definition get (arguments : json) (k : string) (default : json) : outcome json :=
  match arguments with
  | JObj d =>
      match dict_get d k with
      | Some v => Return v
      | None => Return default
      end
  | _ => Raise AttributeError
  end.

(** Computations with effects on a state [S]: the state reached when an
    exception is raised is kept, as mutations made before a Python [raise]
    are. *)
Definition M (S A : Type) : Type := S -> outcome A * S.

Definition ret {S A} (a : A) : M S A := fun s => (Return a, s).

Definition raise {S A} (e : exn) : M S A := fun s => (Raise e, s).

Definition bind {S A B} (m : M S A) (k : A -> M S B) : M S B :=
  fun s =>
    match m s with
    | (Return a, s') => k a s'
    | (Raise e, s') => (Raise e, s')
    | (Unfinished, s') => (Unfinished, s')
    end.

(** A pure outcome used inside a stateful computation. *)
Definition pure {S A} (o : outcome A) : M S A := fun s => (o, s).

End Py.

Import Py.

Declare Scope py_scope.
Delimit Scope py_scope with py.
Notation "x <- c1 ;; c2" := (bind c1 (fun x => c2))
  (at level 61, c1 at next level, right associativity) : py_scope.
Notation "c1 ;;; c2" := (bind c1 (fun _ => c2))
  (at level 61, right associativity) : py_scope.
Notation "x <~ c1 ;; c2" := (obind c1 (fun x => c2))
  (at level 61, c1 at next level, right associativity) : py_scope.

(* ================================================================== *)
(** ** agent_tools.py: the tool catalog *)

Module AgentTools.

(** One entry of a tool's ["properties"]: its JSON type, its ["default"]
    when one is declared, its ["enum"] when one is declared.  The
    descriptions are prose for the model and are left out. *)
Record Property : Type := mkProperty {
  p_name : string;
  p_type : string;
  p_default : option json;
  p_enum : option (list string)
}.

Record Tool : Type := mkTool {
  name : string;
  properties : list Property;
  required : list string
}.

Definition prop (n ty : string) : Property := mkProperty n ty None None.

Definition TOOLS : list Tool :=
  [ mkTool "geocode"
      [ prop "query" "string" ]
      [ "query" ];
    mkTool "reverse_geocode"
      [ prop "latitude" "number"; prop "longitude" "number" ]
      [ "latitude"; "longitude" ];
    mkTool "search_poi"
      [ prop "latitude" "number"; prop "longitude" "number";
        mkProperty "radius" "integer" (Some (JInt 1000)) None;
        mkProperty "category" "string" (Some (JStr "amenity")) None;
        mkProperty "key" "string" (Some JNull) None ]
      [ "latitude"; "longitude" ];
    mkTool "get_place_details"
      [ prop "place_id" "string" ]
      [ "place_id" ];
    mkTool "get_route"
      [ prop "origin_lat" "number"; prop "origin_lon" "number";
        prop "dest_lat" "number"; prop "dest_lon" "number";
        mkProperty "mode" "string" (Some (JStr "driving"))
          (Some [ "driving"; "walking"; "cycling" ]) ]
      [ "origin_lat"; "origin_lon"; "dest_lat"; "dest_lon" ];
    mkTool "get_frequent_places"
      [ prop "start_date" "string"; prop "end_date" "string";
        mkProperty "min_visits" "integer" (Some (JInt 3)) None ]
      [];
    mkTool "summarize_travel_stats"
      [ prop "start_date" "string"; prop "end_date" "string" ]
      [];
    mkTool "get_typical_route"
      [ prop "origin_label" "string"; prop "destination_label" "string";
        prop "time_of_day" "integer" ]
      [ "origin_label"; "destination_label" ];
    mkTool "get_current_weather"
      [ prop "latitude" "number"; prop "longitude" "number";
        mkProperty "include_forecast" "boolean" (Some (JBool false)) None ]
      [ "latitude"; "longitude" ];
    mkTool "get_air_quality"
      [ prop "latitude" "number"; prop "longitude" "number" ]
      [ "latitude"; "longitude" ];
    mkTool "get_astronomy_data"
      [ prop "latitude" "number"; prop "longitude" "number";
        prop "date" "string" ]
      [ "latitude"; "longitude" ] ].

Definition registered_names : list string := map name TOOLS.

Fixpoint lookup_tool (catalog : list Tool) (n : string) : option Tool :=
  match catalog with
  | [] => None
  | t :: rest => if String.eqb (name t) n then Some t else lookup_tool rest n
  end.

Definition mem (k : string) (l : list string) : bool :=
  existsb (String.eqb k) l.

(** The keys a tool's schema lists under ["required"]. *)
Definition required_keys (n : string) : list string :=
  match lookup_tool TOOLS n with
  | Some t => required t
  | None => []
  end.

(** The properties of a tool that its schema does not require. *)
Definition optional_properties (n : string) : list Property :=
  match lookup_tool TOOLS n with
  | Some t => filter (fun p => negb (mem (p_name p) (required t))) (properties t)
  | None => []
  end.

(** What the schema promises for an omitted optional property: its
    declared default, and Python's [None] when none is declared. *)
Definition schema_default (p : Property) : json :=
  match p_default p with
  | Some d => d
  | None => JNull
  end.

(** The optional parameters of the catalog with the value the schema
    gives each of them when it is left out. *)
Definition optional_defaults : list (string * list (string * json)) :=
  map (fun t =>
         (name t,
          map (fun p => (p_name p, schema_default p))
              (optional_properties (name t))))
      TOOLS.

(** The first of [keys], in order, that a dict does not hold. *)
Fixpoint first_missing (d : list (string * json)) (keys : list string)
  : option string :=
  match keys with
  | [] => None
  | k :: rest =>
      match dict_get d k with
      | Some _ => first_missing d rest
      | None => Some k
      end
  end.

(** *** The handlers behind the catalog

    A handler invocation, named after the method that is called, with the
    values bound to the method's parameters in the order of its signature. *)
Inductive Call : Type :=
| geocode (query : json)
| reverse_geocode (latitude longitude : json)
| search_poi (latitude longitude radius category key : json)
| get_place_details (place_id : json)
| get_route (origin_lat origin_lon dest_lat dest_lon mode : json)
| get_frequent_places (start_date end_date min_visits : json)
| summarize_travel_stats (start_date end_date : json)
| get_typical_route (origin_label destination_label time_of_day : json)
| get_current_weather (latitude longitude include_forecast : json)
| get_air_quality (latitude longitude : json)
| get_astronomy_data (latitude longitude date : json).

(** The method a call goes to. *)
Definition callee (c : Call) : string :=
  match c with
  | geocode _ => "geocode"
  | reverse_geocode _ _ => "reverse_geocode"
  | search_poi _ _ _ _ _ => "search_poi"
  | get_place_details _ => "get_place_details"
  | get_route _ _ _ _ _ => "get_route"
  | get_frequent_places _ _ _ => "get_frequent_places"
  | summarize_travel_stats _ _ => "summarize_travel_stats"
  | get_typical_route _ _ _ => "get_typical_route"
  | get_current_weather _ _ _ => "get_current_weather"
  | get_air_quality _ _ => "get_air_quality"
  | get_astronomy_data _ _ _ => "get_astronomy_data"
  end.

(** The call's arguments under the parameter names of the method's
    signature in [servers/]. *)
Definition kwargs (c : Call) : list (string * json) :=
  match c with
  | geocode q => [ ("query", q) ]
  | reverse_geocode la lo => [ ("latitude", la); ("longitude", lo) ]
  | search_poi la lo r ca k =>
      [ ("latitude", la); ("longitude", lo); ("radius", r);
        ("category", ca); ("key", k) ]
  | get_place_details p => [ ("place_id", p) ]
  | get_route ola olo dla dlo m =>
      [ ("origin_lat", ola); ("origin_lon", olo); ("dest_lat", dla);
        ("dest_lon", dlo); ("mode", m) ]
  | get_frequent_places s e m =>
      [ ("start_date", s); ("end_date", e); ("min_visits", m) ]
  | summarize_travel_stats s e => [ ("start_date", s); ("end_date", e) ]
  | get_typical_route o d t =>
      [ ("origin_label", o); ("destination_label", d); ("time_of_day", t) ]
  | get_current_weather la lo f =>
      [ ("latitude", la); ("longitude", lo); ("include_forecast", f) ]
  | get_air_quality la lo => [ ("latitude", la); ("longitude", lo) ]
  | get_astronomy_data la lo d =>
      [ ("latitude", la); ("longitude", lo); ("date", d) ]
  end.

(** Where [execute_tool] ends up once the tool name is matched and the
    argument expressions are evaluated: a handler call, or the envelope of
    the final [else]. *)
Inductive Routed : Type :=
| Invoke (c : Call)
| Envelope (e : json).

Definition unknown_tool (tool_name : string) : json :=
  JObj [ ("success", JBool false);
         ("error", JStr ("Unknown tool: " ++ tool_name)) ].

Local Open Scope py_scope.

(** The [if]/[elif] chain of [execute_tool] up to the handler call: the
    tool name is compared in source order and the argument expressions are
    evaluated left to right, so the first failing subscript raises. *)
Definition route (tool_name : string) (arguments : json) : outcome Routed :=
  if tool_name =? "geocode" then
    query <~ getitem arguments "query" ;;
    Return (Invoke (geocode query))
  else if tool_name =? "reverse_geocode" then
    latitude <~ getitem arguments "latitude" ;;
    longitude <~ getitem arguments "longitude" ;;
    Return (Invoke (reverse_geocode latitude longitude))
  else if tool_name =? "search_poi" then
    latitude <~ getitem arguments "latitude" ;;
    longitude <~ getitem arguments "longitude" ;;
    radius <~ get arguments "radius" (JInt 1000) ;;
    category <~ get arguments "category" (JStr "amenity") ;;
    key <~ get arguments "key" JNull ;;
    Return (Invoke (search_poi latitude longitude radius category key))
  else if tool_name =? "get_place_details" then
    place_id <~ getitem arguments "place_id" ;;
    Return (Invoke (get_place_details place_id))
  else if tool_name =? "get_route" then
    origin_lat <~ getitem arguments "origin_lat" ;;
    origin_lon <~ getitem arguments "origin_lon" ;;
    dest_lat <~ getitem arguments "dest_lat" ;;
    dest_lon <~ getitem arguments "dest_lon" ;;
    mode <~ get arguments "mode" (JStr "driving") ;;
    Return (Invoke (get_route origin_lat origin_lon dest_lat dest_lon mode))
  else if tool_name =? "get_frequent_places" then
    start_date <~ get arguments "start_date" JNull ;;
    end_date <~ get arguments "end_date" JNull ;;
    min_visits <~ get arguments "min_visits" (JInt 3) ;;
    Return (Invoke (get_frequent_places start_date end_date min_visits))
  else if tool_name =? "summarize_travel_stats" then
    start_date <~ get arguments "start_date" JNull ;;
    end_date <~ get arguments "end_date" JNull ;;
    Return (Invoke (summarize_travel_stats start_date end_date))
  else if tool_name =? "get_typical_route" then
    origin_label <~ getitem arguments "origin_label" ;;
    destination_label <~ getitem arguments "destination_label" ;;
    time_of_day <~ get arguments "time_of_day" JNull ;;
    Return (Invoke (get_typical_route origin_label destination_label time_of_day))
  else if tool_name =? "get_current_weather" then
    latitude <~ getitem arguments "latitude" ;;
    longitude <~ getitem arguments "longitude" ;;
    include_forecast <~ get arguments "include_forecast" (JBool false) ;;
    Return (Invoke (get_current_weather latitude longitude include_forecast))
  else if tool_name =? "get_air_quality" then
    latitude <~ getitem arguments "latitude" ;;
    longitude <~ getitem arguments "longitude" ;;
    Return (Invoke (get_air_quality latitude longitude))
  else if tool_name =? "get_astronomy_data" then
    latitude <~ getitem arguments "latitude" ;;
    longitude <~ getitem arguments "longitude" ;;
    date <~ get arguments "date" JNull ;;
    Return (Invoke (get_astronomy_data latitude longitude date))
  else
    Return (Envelope (unknown_tool tool_name)).

Section Dispatcher.

(** The state of everything outside the process: the HTTP back ends, the
    clock, the files. *)
Variable World : Type.

(** The three server objects created when the module is imported: what
    each method does with its arguments, which for most of them is a
    request to a remote service. *)
Variable servers : Call -> M World json.

(** [execute_tool]: there is no [try] around the chain, so an exception
    from an argument expression or from a handler leaves the function. *)
Definition execute_tool (tool_name : string) (arguments : json)
  : M World json :=
  r <- pure (route tool_name arguments) ;;
  match r with
  | Invoke c => servers c
  | Envelope e => ret e
  end.

End Dispatcher.

End AgentTools.

(* ================================================================== *)
(** ** servers/core_map_server.py: the routing profile of [get_route] *)

Module CoreMapServer.

Local Open Scope py_scope.

(** [mode_map], in the order the dict literal is written. *)
Definition mode_map : list (string * string) :=
  [ ("driving", "car"); ("walking", "foot"); ("cycling", "bike");
    ("car", "car"); ("foot", "foot"); ("bike", "bike") ].

Section GetRoute.

(** [str.lower]: Python folds every cased Unicode letter, so it is taken
    as given rather than cut down to the ASCII letters. *)
Variable lower : string -> string.

(** [mode_map.get(mode.lower(), "car")] for a string [mode]. *)
Definition profile_of (mode : string) : string :=
  match dict_get mode_map (lower mode) with
  | Some p => p
  | None => "car"
  end.

(** The same expression for any value that reaches the handler: only a
    [str] has a [lower] method, and the expression stands before the
    [try]. *)
Definition profile (mode : json) : outcome string :=
  match mode with
  | JStr s => Return (profile_of s)
  | _ => Raise AttributeError
  end.

Variable World : Type.

(** The [try] block: the request to the OSRM service for a profile and
    two points, and the envelope built from the answer or from the
    exception.  [mode] is only echoed into the envelope. *)
Variable osrm_route :
  forall (profile : string) (origin_lat origin_lon dest_lat dest_lon mode : json),
    M World json.

(** [CoreMapServer.get_route]; the rate-limit sleep only passes time. *)
Definition get_route (origin_lat origin_lon dest_lat dest_lon mode : json)
  : M World json :=
  p <- pure (profile mode) ;;
  osrm_route p origin_lat origin_lon dest_lat dest_lon mode.

End GetRoute.

(** Server objects whose [get_route] is the method above; [others] stands
    for the remaining methods. *)
Definition servers (lower : string -> string) (World : Type)
    (osrm_route : string -> json -> json -> json -> json -> json -> M World json)
    (others : AgentTools.Call -> M World json)
  : AgentTools.Call -> M World json :=
  fun c =>
    match c with
    | AgentTools.get_route origin_lat origin_lon dest_lat dest_lon mode =>
        get_route lower World osrm_route origin_lat origin_lon dest_lat dest_lon mode
    | _ => others c
    end.

(** [str.lower] on text made of ASCII characters. *)
Definition ascii_lower_char (c : ascii) : ascii :=
  let n := nat_of_ascii c in
  if andb (Nat.leb 65 n) (Nat.leb n 90) then ascii_of_nat (n + 32) else c.

Fixpoint ascii_lower (s : string) : string :=
  match s with
  | EmptyString => EmptyString
  | String c rest => String (ascii_lower_char c) (ascii_lower rest)
  end.

End CoreMapServer.

(* ================================================================== *)
(** ** servers/history_map_server.py *)

Module HistoryMapServer.

(** A JSON number of the trip file, and the text an f-string gives it. *)
Inductive number : Type :=
| Int (z : Z)
| Float (repr : string).

Definition str (n : number) : string :=
  match n with
  | Int z => NilZero.string_of_int (Z.to_int z)
  | Float r => r
  end.

Definition num (n : number) : json :=
  match n with
  | Int z => JInt z
  | Float r => JFloat r
  end.

(** The records of [data/trip_history.json], with the fields the server
    reads. *)
Record Place : Type := mkPlace {
  lat : number;
  lon : number;
  label : string
}.

Record Trip : Type := mkTrip {
  date : string;
  origin : Place;
  destination : Place;
  distance_km : number;
  duration_minutes : number;
  mode : string;
  hour : Z
}.

(** Truth value of an [Optional[str]]: [None] and the empty string are
    false. *)
Definition truthy (s : option string) : bool :=
  match s with
  | Some (String _ _) => true
  | _ => false
  end.

Definition text (s : option string) : string :=
  match s with
  | Some x => x
  | None => ""
  end.

(** The two list comprehensions that open both handlers; strings compare
    character by character. *)
Definition filter_trips (trip_data : list Trip) (start_date end_date : option string)
  : list Trip :=
  let filtered_trips := trip_data in
  let filtered_trips :=
    if truthy start_date
    then filter (fun t => String.leb (text start_date) (date t)) filtered_trips
    else filtered_trips in
  let filtered_trips :=
    if truthy end_date
    then filter (fun t => String.leb (date t) (text end_date)) filtered_trips
    else filtered_trips in
  filtered_trips.

(** One value of the [place_visits] dict, once its place has been
    visited. *)
Record Visits : Type := mkVisits {
  count : Z;
  coords : number * number;
  v_label : string
}.

Definition place_key (p : Place) : string :=
  str (lat p) ++ "," ++ str (lon p).

(** [place_visits[key]["count"] += 1] and the two assignments after it: a
    new key goes to the end of the dict, a known key keeps its position. *)
Fixpoint visit (key : string) (p : Place) (place_visits : list (string * Visits))
  : list (string * Visits) :=
  match place_visits with
  | [] => [ (key, mkVisits 1 (lat p, lon p) (label p)) ]
  | (k, d) :: rest =>
      if String.eqb k key
      then (k, mkVisits (count d + 1) (lat p, lon p) (label p)) :: rest
      else (k, d) :: visit key p rest
  end.

Definition count_trip (place_visits : list (string * Visits)) (trip : Trip)
  : list (string * Visits) :=
  let place_visits := visit (place_key (origin trip)) (origin trip) place_visits in
  visit (place_key (destination trip)) (destination trip) place_visits.

Definition count_visits (filtered_trips : list Trip) : list (string * Visits) :=
  fold_left count_trip filtered_trips [].

(** One element of ["places"]. *)
Record FrequentPlace : Type := mkFrequentPlace {
  fp_label : string;
  latitude : number;
  longitude : number;
  visit_count : Z
}.

Definition frequent_place (data : Visits) : FrequentPlace :=
  mkFrequentPlace (v_label data) (fst (coords data)) (snd (coords data)) (count data).

(** [list.sort(key=..., reverse=True)]: descending, and places with the
    same count keep their order. *)
Fixpoint insert_desc (x : FrequentPlace) (l : list FrequentPlace)
  : list FrequentPlace :=
  match l with
  | [] => [ x ]
  | y :: rest =>
      if Z.ltb (visit_count x) (visit_count y)
      then y :: insert_desc x rest
      else x :: l
  end.

Definition sort_desc (l : list FrequentPlace) : list FrequentPlace :=
  fold_right insert_desc [] l.

(** The list [frequent_places] after the sort. *)
Definition frequent_places (filtered_trips : list Trip) (min_visits : Z)
  : list FrequentPlace :=
  sort_desc
    (map frequent_place
       (filter (fun data => Z.geb (count data) min_visits)
          (map snd (count_visits filtered_trips)))).

Definition place_json (p : FrequentPlace) : json :=
  JObj [ ("label", JStr (fp_label p));
         ("latitude", num (latitude p));
         ("longitude", num (longitude p));
         ("visit_count", JInt (visit_count p)) ].

(** [start_date or filtered_trips[-1]["date"] if filtered_trips else None]
    and its twin for the end: the conditional binds weaker than [or]. *)
Definition window_start (start_date : option string) (filtered_trips : list Trip)
  : json :=
  match filtered_trips with
  | [] => JNull
  | t :: _ =>
      if truthy start_date then JStr (text start_date)
      else JStr (date (last filtered_trips t))
  end.

Definition window_end (end_date : option string) (filtered_trips : list Trip)
  : json :=
  match filtered_trips with
  | [] => JNull
  | t :: _ => if truthy end_date then JStr (text end_date) else JStr (date t)
  end.

Section Handlers.

(** [self.trip_data], loaded once when the server is built. *)
Variable trip_data : list Trip.

(** [get_frequent_places] on arguments of its annotated types; on such
    arguments nothing in the [try] raises. *)
Definition get_frequent_places
    (start_date end_date : option string) (min_visits : Z) : json :=
  let filtered_trips := filter_trips trip_data start_date end_date in
  let places := frequent_places filtered_trips min_visits in
  JObj [ ("success", JBool true);
         ("time_window",
          JObj [ ("start_date", window_start start_date filtered_trips);
                 ("end_date", window_end end_date filtered_trips) ]);
         ("total_places", JInt (Z.of_nat (length places)));
         ("places", JArr (map place_json places)) ].

(** The statistics of a window that has trips: floating-point sums,
    averages and roundings, and the envelope built from them or from an
    exception raised on the way. *)
Variable travel_stats :
  forall (start_date end_date : option string) (filtered_trips : list Trip), json.

(** [summarize_travel_stats] *)
Definition summarize_travel_stats (start_date end_date : option string) : json :=
  let filtered_trips := filter_trips trip_data start_date end_date in
  match filtered_trips with
  | [] =>
      JObj [ ("success", JBool false);
             ("error", JStr "No trips found in specified time window") ]
  | _ :: _ => travel_stats start_date end_date filtered_trips
  end.

End Handlers.

(** A trip lies in the window when each bound that is given (and not
    empty) holds for its date. *)
Definition in_window (start_date end_date : option string) (t : Trip) : Prop :=
  (truthy start_date = true -> String.leb (text start_date) (date t) = true) /\
  (truthy end_date = true -> String.leb (date t) (text end_date) = true).

(** The places the trips touch, origin then destination, in trip order. *)
Definition endpoints (trips : list Trip) : list Place :=
  flat_map (fun t => [ origin t; destination t ]) trips.

(** [count_visits] seen as one visit per endpoint. *)
Definition visit_places (places : list Place) (place_visits : list (string * Visits))
  : list (string * Visits) :=
  fold_left (fun pv p => visit (place_key p) p pv) places place_visits.

(** The key under which an element of ["places"] was counted. *)
Definition fp_key (p : FrequentPlace) : string :=
  str (latitude p) ++ "," ++ str (longitude p).

(** How often a key is visited. *)
Fixpoint visits_of (key : string) (places : list Place) : Z :=
  match places with
  | [] => 0
  | p :: rest =>
      (if String.eqb (place_key p) key then 1 else 0) + visits_of key rest
  end.

Definition coords_key (c : number * number) : string :=
  str (fst c) ++ "," ++ str (snd c).

(** What [place_visits] holds once the places [seen] are counted: one
    entry per key that occurs, with the number of its occurrences and the
    coordinates of a place that has this key. *)
Definition counted (place_visits : list (string * Visits)) (seen : list Place)
  : Prop :=
  NoDup (map fst place_visits) /\
  forall k : string,
    match dict_get place_visits k with
    | Some d =>
        count d = visits_of k seen /\ (0 < count d)%Z /\
        coords_key (coords d) = k
    | None => visits_of k seen = 0%Z
    end.

(** Three trips between a home and an office, and one trip to a gym. *)
Definition home : Place := mkPlace (Int 10) (Int 20) "Home".
Definition office : Place := mkPlace (Int 11) (Int 21) "Office".
Definition gym : Place := mkPlace (Float "10.5") (Int 20) "Gym".

Definition sample_trips : list Trip :=
  [ mkTrip "2025-03-03" home office (Float "4.2") (Int 15) "driving" 8;
    mkTrip "2025-03-02" office home (Float "4.2") (Int 17) "driving" 18;
    mkTrip "2025-03-02" home office (Float "4.2") (Int 14) "driving" 8;
    mkTrip "2025-03-01" home gym (Float "1.1") (Int 12) "walking" 19 ].


End HistoryMapServer.

(* ================================================================== *)
(** ** agent.py: the conversation and the tool-calling loop *)

Module Agent.

Local Open Scope py_scope.

(** A tool call of a model reply: [tc.id], [tc.function.name] and
    [tc.function.arguments], the last one still JSON text. *)
Record ToolCall : Type := mkToolCall {
  id : string;
  function_name : string;
  function_arguments : string
}.

(** [response.choices[0].message] *)
Record Message : Type := mkMessage {
  content : option string;
  tool_calls : option (list ToolCall)
}.

(** The dicts of [conversation_history], by role, and the system dict put
    in front of them for each request. *)
Inductive Turn : Type :=
| system (text : string)
| user (text : string)
| assistant (text : option string) (calls : option (list ToolCall))
| tool (tool_call_id : string) (text : string).

(** A [MapAgent]: the client is known by its API key. *)
Record MapAgent : Type := mkMapAgent {
  client : option string;
  model : option string;
  conversation_history : list Turn;
  verbose : bool
}.

Definition with_history (a : MapAgent) (h : list Turn) : MapAgent :=
  mkMapAgent (client a) (model a) h (verbose a).

(** [reset_conversation] *)
Definition reset_conversation (a : MapAgent) : MapAgent :=
  with_history a [].

Definition fallback : string :=
  "I apologize, but I couldn't generate a response.".

(** [response_message.content or fallback] *)
Definition content_or_fallback (c : option string) : string :=
  match c with
  | Some (String a s) => String a s
  | _ => fallback
  end.

(** What [while response_message.tool_calls] iterates on: [None] and the
    empty list are false. *)
Definition requested (m : Message) : list ToolCall :=
  match tool_calls m with
  | Some l => l
  | None => []
  end.

(** [[{"role": "system", ...}] + self.conversation_history] *)
Definition messages (prompt : string) (a : MapAgent) : list Turn :=
  system prompt :: conversation_history a.

(** The tool turns of a list of requests, given the text of each result. *)
Definition tool_turns (calls : list ToolCall) (texts : list string) : list Turn :=
  map (fun ct => tool (id (fst ct)) (snd ct)) (combine calls texts).

(** An agent after some turns were appended to its history and nothing
    else was changed. *)
Definition extends (a a' : MapAgent) : Prop :=
  exists suffix : list Turn, a' = with_history a (conversation_history a ++ suffix).

Section Chat.

Variable World : Type.

(** [client.chat.completions.create(model=..., messages=..., tools=TOOLS,
    tool_choice="auto")] and the first choice of its response. *)
Variable create :
  forall (client model : option string) (messages : list Turn)
         (tools : list AgentTools.Tool), M World Message.

(** [_get_system_prompt]: the prompt file is read again for each request. *)
Variable get_system_prompt : M World string.

(** [json.loads] and [json.dumps] *)
Variable json_loads : string -> outcome json.
Variable json_dumps : json -> string.

(** The server objects of [agent_tools]. *)
Variable servers : AgentTools.Call -> M World json.

Definition State : Type := (MapAgent * World)%type.

(** An effect on the outside only. *)
Definition outside {A} (m : M World A) : M State A :=
  fun s =>
    match m (snd s) with
    | (r, w') => (r, (fst s, w'))
    end.

Definition self : M State MapAgent :=
  fun s => (Return (fst s), s).

(** [self.conversation_history.append(turn)] *)
Definition append (turn : Turn) : M State unit :=
  fun s =>
    (Return tt,
     (with_history (fst s) (conversation_history (fst s) ++ [ turn ]), snd s)).

(** Building [messages] and calling the endpoint. *)
Definition completion : M State Message :=
  prompt <- outside get_system_prompt ;;
  a <- self ;;
  outside (create (client a) (model a) (messages prompt a) AgentTools.TOOLS).

(** [for tool_call in response_message.tool_calls]; the prints of the
    verbose mode are left out. *)
Fixpoint for_tool_calls (calls : list ToolCall) : M State unit :=
  match calls with
  | [] => ret tt
  | tool_call :: rest =>
      function_args <- pure (json_loads (function_arguments tool_call)) ;;
      function_response <-
        outside (AgentTools.execute_tool World servers
                   (function_name tool_call) function_args) ;;
      append (tool (id tool_call) (json_dumps function_response)) ;;;
      for_tool_calls rest
  end.

(** The requests of a round whose payloads all decode and whose
    dispatches all return, with the tool turns they produce and the
    outside state they leave. *)
Inductive dispatched : World -> list ToolCall -> list Turn -> World -> Prop :=
| dispatched_nil : forall w, dispatched w [] [] w
| dispatched_cons :
    forall w tool_call function_args function_response w1 rest turns w2,
      json_loads (function_arguments tool_call) = Return function_args ->
      AgentTools.execute_tool World servers
        (function_name tool_call) function_args w
      = (Return function_response, w1) ->
      dispatched w1 rest turns w2 ->
      dispatched w (tool_call :: rest)
        (tool (id tool_call) (json_dumps function_response) :: turns) w2.

(** The body of the [while]: one round that answers tool requests and
    asks the model again. *)
Definition tool_round (response_message : Message) : M State Message :=
  append (assistant (content response_message)
            (Some (requested response_message))) ;;;
  for_tool_calls (requested response_message) ;;;
  completion.

(** The [while] and the lines after it; [fuel] bounds the rounds. *)
Fixpoint tool_loop (fuel : nat) (response_message : Message) : M State string :=
  match requested response_message with
  | [] =>
      let assistant_message := content_or_fallback (content response_message) in
      append (assistant (Some assistant_message) None) ;;;
      ret assistant_message
  | _ :: _ =>
      match fuel with
      | O => fun s => (Unfinished, s)
      | S fuel' =>
          next <- tool_round response_message ;;
          tool_loop fuel' next
      end
  end.

(** [chat] *)
Definition chat (fuel : nat) (user_message : string) : M State string :=
  append (user user_message) ;;;
  response_message <- completion ;;
  tool_loop fuel response_message.

End Chat.

End Agent.

(* ================================================================== *)
(** ** agent_tools.py: what a tool reads from its arguments *)

Module Schema.

Import AgentTools.

(** The names under ["properties"] of a tool of the catalog. *)
Definition property_names (n : string) : list string :=
  match lookup_tool TOOLS n with
  | Some t => map p_name (properties t)
  | None => []
  end.

(** A decoded payload that is a JSON object. *)
Definition is_object (j : json) : bool :=
  match j with
  | JObj _ => true
  | _ => false
  end.

(** The tools whose first argument expression is a [.get], not a
    subscript: the two whose schema requires nothing. *)
Definition reads_with_get_first (n : string) : bool :=
  match required_keys n with
  | [] => true
  | _ :: _ => false
  end.

End Schema.

(* ================================================================== *)
(** ** servers/history_map_server.py: routes and modes *)

Module HistoryAnalytics.

Import HistoryMapServer.

(** [counts[key] += 1] on a [defaultdict(int)]: a new key goes to the end
    with count one, a known key keeps its position. *)
Fixpoint increment (key : string) (counts : list (string * Z))
  : list (string * Z) :=
  match counts with
  | [] => [ (key, 1%Z) ]
  | (k, c) :: rest =>
      if String.eqb k key
      then (k, (c + 1)%Z) :: rest
      else (k, c) :: increment key rest
  end.

(** [for x in items: counts[key(x)] += 1], from an empty dict. *)
Definition tally {A : Type} (key : A -> string) (items : list A)
  : list (string * Z) :=
  fold_left (fun counts x => increment (key x) counts) items [].



(** [sorted(items, key=count, reverse=True)]: descending and stable. *)
Fixpoint insert_count (x : string * Z) (l : list (string * Z))
  : list (string * Z) :=
  match l with
  | [] => [ x ]
  | y :: rest =>
      if Z.ltb (snd x) (snd y) then y :: insert_count x rest else x :: l
  end.

Definition sort_counts (l : list (string * Z)) : list (string * Z) :=
  fold_right insert_count [] l.


(** [max(items, key=count)]: the first item among those with the largest
    count. *)
Fixpoint max_count (best : string * Z) (items : list (string * Z))
  : string * Z :=
  match items with
  | [] => best
  | x :: rest =>
      if Z.ltb (snd best) (snd x) then max_count x rest else max_count best rest
  end.

(** The f-string [f"{a} → {b}"] of a route. *)
Definition route_label (origin_label destination_label : string) : string :=
  origin_label ++ " → " ++ destination_label.



Definition route_json (r : string * Z) : json :=
  JObj [ ("route", JStr (fst r)); ("trip_count", JInt (snd r)) ].

(** The two list comprehensions of [get_typical_route]. *)
Definition matching_trips (trip_data : list Trip)
    (origin_label destination_label : string) (time_of_day : option Z)
  : list Trip :=
  let matching_trips :=
    filter (fun t => andb (String.eqb (label (origin t)) origin_label)
                          (String.eqb (label (destination t)) destination_label))
           trip_data in
  match time_of_day with
  | Some h => filter (fun t => Z.eqb (hour t) h) matching_trips
  | None => matching_trips
  end.

(** [max(mode_counts.items(), key=lambda x: x[1])[0]] for the trips of a
    route; the dict of a list that has a first trip is not empty, and that
    trip's mode stands in for the start of the search. *)
Definition most_common_mode (first : Trip) (mode_counts : list (string * Z))
  : string :=
  match mode_counts with
  | [] => mode first
  | x :: rest => fst (max_count x rest)
  end.

Section TypicalRoute.

Variable trip_data : list Trip.

(** [round(sum(field of each trip) / len(trips), 2)], a float. *)
Variable average : (Trip -> number) -> list Trip -> json.

(** [get_typical_route] on arguments of its annotated types. *)
Definition get_typical_route (origin_label destination_label : string)
    (time_of_day : option Z) : json :=
  let matching := matching_trips trip_data origin_label destination_label
                    time_of_day in
  match matching with
  | [] =>
      JObj [ ("success", JBool false);
             ("error",
              JStr ("No trips found for route "
                    ++ route_label origin_label destination_label)) ]
  | first :: _ =>
      let mode_counts := tally mode matching in
      JObj [ ("success", JBool true);
             ("route", JStr (route_label origin_label destination_label));
             ("time_of_day_filter",
              match time_of_day with
              | Some h => JInt h
              | None => JNull
              end);
             ("trip_count", JInt (Z.of_nat (length matching)));
             ("average_distance_km", average distance_km matching);
             ("average_duration_minutes", average duration_minutes matching);
             ("most_common_mode", JStr (most_common_mode first mode_counts));
             ("mode_distribution",
              JObj (map (fun kc => (fst kc, JInt (snd kc))) mode_counts)) ]
  end.

End TypicalRoute.


(** [envelope[k]] read back from a result. *)
Definition field (envelope : json) (k : string) : option json :=
  match envelope with
  | JObj d => dict_get d k
  | _ => None
  end.

(** The order the sort of [get_frequent_places] leaves. *)
Definition by_visits_desc (p q : FrequentPlace) : Prop :=
  (visit_count q <= visit_count p)%Z.

(** The places that reach [min_visits], in the order of the dict, that is
    in the order of their first visit. *)
Definition qualifying (filtered_trips : list Trip) (min_visits : Z)
  : list FrequentPlace :=
  map frequent_place
    (filter (fun data => Z.geb (count data) min_visits)
       (map snd (count_visits filtered_trips))).

Definition total_visits (places : list FrequentPlace) : Z :=
  fold_right (fun p acc => (visit_count p + acc)%Z) 0%Z places.

(** Both bounds of a window at once, as a test. *)
Definition in_windowb (start_date end_date : option string) (t : Trip) : bool :=
  andb (if truthy start_date then String.leb (text start_date) (date t) else true)
       (if truthy end_date then String.leb (date t) (text end_date) else true).

(** A file written newest trip first: dates do not grow along the list. *)
Definition newest_first (a b : Trip) : Prop :=
  String.leb (date b) (date a) = true.

End HistoryAnalytics.

(* ================================================================== *)
(** ** servers/core_map_server.py: place ids and reverse geocoding *)

Module CoreMapReplies.

(** [s.startswith(c)] for a single character, [s[1:]] and [s[0]]. *)
Definition startswith (s : string) (c : ascii) : bool :=
  match s with
  | String a _ => Ascii.eqb a c
  | EmptyString => false
  end.

Definition tail (s : string) : string :=
  match s with
  | String _ rest => rest
  | EmptyString => EmptyString
  end.

Definition initial (s : string) : string :=
  match s with
  | String a _ => String a EmptyString
  | EmptyString => EmptyString
  end.

(** [str.upper] on text made of ASCII characters. *)
Definition ascii_upper_char (c : ascii) : ascii :=
  let n := nat_of_ascii c in
  if andb (Nat.leb 97 n) (Nat.leb n 122) then ascii_of_nat (n - 32) else c.

Fixpoint ascii_upper (s : string) : string :=
  match s with
  | EmptyString => EmptyString
  | String c rest => String (ascii_upper_char c) (ascii_upper rest)
  end.

(** The [if]/[elif] chain of [get_place_details] that splits a place id
    into [osm_type] and [osm_id]. *)
Definition osm_type_and_id (place_id : string) : string * string :=
  if startswith place_id "N" then ("node", tail place_id)
  else if startswith place_id "W" then ("way", tail place_id)
  else if startswith place_id "R" then ("relation", tail place_id)
  else ("node", place_id).

(** [f"{osm_type[0].upper()}{osm_id}"], the id sent to the lookup service. *)
Definition osm_ids (place_id : string) : string :=
  ascii_upper (initial (fst (osm_type_and_id place_id)))
  ++ snd (osm_type_and_id place_id).

(** The type name Python prints for a JSON value. *)
Definition type_name (j : json) : string :=
  match j with
  | JNull => "NoneType"
  | JBool _ => "bool"
  | JInt _ => "int"
  | JFloat _ => "float"
  | JStr _ => "str"
  | JArr _ => "list"
  | JObj _ => "dict"
  end.

(** The text of the [AttributeError] raised by [j.get] on a value that is
    not a dict. *)
Definition no_attribute_get (j : json) : string :=
  "'" ++ type_name j ++ "' object has no attribute 'get'".

(** Inside a [try]: a value, or the text [str(e)] of the exception that
    ended the block. *)
Definition attempt (A : Type) : Type := (string + A)%type.

Definition attempt_bind {A B} (a : attempt A) (k : A -> attempt B) : attempt B :=
  match a with
  | inl message => inl message
  | inr x => k x
  end.

(** [d.get(k, default)] inside a [try]. *)
Definition get_or (d : json) (k : string) (default : json) : attempt json :=
  match d with
  | JObj fields =>
      inr (match dict_get fields k with
           | Some v => v
           | None => default
           end)
  | _ => inl (no_attribute_get d)
  end.

Definition failure (message : string) : json :=
  JObj [ ("success", JBool false); ("error", JStr message) ].

Local Notation "x <-- a ;; k" := (attempt_bind a (fun x => k))
  (at level 61, a at next level, right associativity).

(** The lines of [reverse_geocode] after [data = response.json()]: the
    defaults of the nested [.get] calls are evaluated before the call they
    are passed to. *)
Definition reverse_geocode_result (data latitude longitude : json) : attempt json :=
  address <-- get_or data "address" (JObj []) ;;
  display_name <-- get_or data "display_name" (JStr "") ;;
  road <-- get_or address "road" (JStr "") ;;
  suburb <-- get_or address "suburb" (JStr "") ;;
  neighbourhood <-- get_or address "neighbourhood" suburb ;;
  village <-- get_or address "village" (JStr "") ;;
  town <-- get_or address "town" village ;;
  city <-- get_or address "city" town ;;
  state <-- get_or address "state" (JStr "") ;;
  country <-- get_or address "country" (JStr "") ;;
  postcode <-- get_or address "postcode" (JStr "") ;;
  inr (JObj [ ("success", JBool true);
              ("display_name", display_name);
              ("address",
               JObj [ ("road", road);
                      ("neighbourhood", neighbourhood);
                      ("city", city);
                      ("state", state);
                      ("country", country);
                      ("postcode", postcode) ]);
              ("latitude", latitude);
              ("longitude", longitude) ]).

Section ReverseGeocode.

Variable World : Type.

(** The request to the geocoding service with [raise_for_status] and
    [response.json()]: the decoded body, or the text of the exception. *)
Variable nominatim_reverse : json -> json -> World -> attempt json * World.

(** [CoreMapServer.reverse_geocode]; the rate-limit sleep only passes
    time. *)
Definition reverse_geocode (latitude longitude : json) : M World json :=
  fun w =>
    match nominatim_reverse latitude longitude w with
    | (reply, w') =>
        match (data <-- reply ;; reverse_geocode_result data latitude longitude) with
        | inr envelope => (Return envelope, w')
        | inl message =>
            (Return (failure ("Reverse geocoding error: " ++ message)), w')
        end
    end.

End ReverseGeocode.



End CoreMapReplies.

(* ================================================================== *)
(** ** servers/weather_map_server.py: air quality *)

Module WeatherEnvironmentServer.

Import CoreMapReplies.

(** The dict that [_get_aqi_category] returns. *)
Record AqiCategory : Type := mkAqiCategory {
  category : string;
  health_impact : string;
  recommendation : string
}.

Definition good : AqiCategory :=
  mkAqiCategory "Good" "Air quality is satisfactory" "Enjoy outdoor activities".

Definition moderate : AqiCategory :=
  mkAqiCategory "Moderate" "Acceptable for most people"
    "Sensitive individuals should limit prolonged outdoor exertion".

Definition unhealthy_for_sensitive : AqiCategory :=
  mkAqiCategory "Unhealthy for Sensitive Groups"
    "May cause breathing issues for sensitive groups"
    "Children, elderly, and people with respiratory conditions should reduce outdoor activities".

Definition unhealthy : AqiCategory :=
  mkAqiCategory "Unhealthy" "Everyone may experience health effects"
    "Avoid prolonged outdoor activities".

Definition very_unhealthy : AqiCategory :=
  mkAqiCategory "Very Unhealthy"
    "Health alert: everyone may experience serious effects"
    "Stay indoors and keep windows closed".

Definition hazardous : AqiCategory :=
  mkAqiCategory "Hazardous" "Emergency conditions"
    "Everyone should avoid all outdoor activities".

(** [str(x)] of a value that passed the comparisons of
    [_get_aqi_category]: an int, a bool or a float. *)
Definition number_text (j : json) : string :=
  match j with
  | JInt z => NilZero.string_of_int (Z.to_int z)
  | JBool true => "True"
  | JBool false => "False"
  | JFloat r => r
  | JStr s => s
  | _ => "None"
  end.

Local Notation "x <-- a ;; k" := (attempt_bind a (fun x => k))
  (at level 61, a at next level, right associativity).

Section AirQuality.

(** [x <= bound] for a float [x] given by its [repr]. *)
Variable float_le : string -> Z -> bool.

(** [aqi <= bound] for whatever the reply holds under ["us_aqi"]: a bool
    counts as 0 or 1, and a value that is not a number has no order with
    an int. *)
Definition le (aqi : json) (bound : Z) : attempt bool :=
  match aqi with
  | JInt z => inr (Z.leb z bound)
  | JBool b => inr (Z.leb (if b then 1 else 0) bound)
  | JFloat r => inr (float_le r bound)
  | _ =>
      inl ("'<=' not supported between instances of '"
           ++ type_name aqi ++ "' and 'int'")%string
  end.

Definition _get_aqi_category (aqi : json) : attempt AqiCategory :=
  c <-- le aqi 50 ;;
  if c then inr good else
  c <-- le aqi 100 ;;
  if c then inr moderate else
  c <-- le aqi 150 ;;
  if c then inr unhealthy_for_sensitive else
  c <-- le aqi 200 ;;
  if c then inr unhealthy else
  c <-- le aqi 300 ;;
  if c then inr very_unhealthy else
  inr hazardous.

(** The lines of [get_air_quality] after [data = response.json()]; [now]
    is [datetime.now(timezone.utc).isoformat()]. *)
Definition air_quality_result (data latitude longitude : json) (now : string)
  : attempt json :=
  current <-- get_or data "current" (JObj []) ;;
  us_aqi <-- get_or current "us_aqi" (JInt 0) ;;
  aqi_category <-- _get_aqi_category us_aqi ;;
  timestamp <-- get_or current "time" (JStr now) ;;
  european_aqi <-- get_or current "european_aqi" JNull ;;
  pm2_5 <-- get_or current "pm2_5" (JInt 0) ;;
  pm10 <-- get_or current "pm10" (JInt 0) ;;
  carbon_monoxide <-- get_or current "carbon_monoxide" (JInt 0) ;;
  nitrogen_dioxide <-- get_or current "nitrogen_dioxide" (JInt 0) ;;
  ozone <-- get_or current "ozone" (JInt 0) ;;
  inr (JObj [ ("success", JBool true);
              ("location",
               JObj [ ("latitude", latitude); ("longitude", longitude) ]);
              ("timestamp", timestamp);
              ("air_quality",
               JObj [ ("us_aqi", us_aqi);
                      ("european_aqi", european_aqi);
                      ("category", JStr (category aqi_category));
                      ("health_impact", JStr (health_impact aqi_category));
                      ("recommendation", JStr (recommendation aqi_category)) ]);
              ("pollutants",
               JObj [ ("pm2_5_ugm3", pm2_5);
                      ("pm10_ugm3", pm10);
                      ("carbon_monoxide_ugm3", carbon_monoxide);
                      ("nitrogen_dioxide_ugm3", nitrogen_dioxide);
                      ("ozone_ugm3", ozone) ]);
              ("summary",
               JStr ("Air Quality: " ++ category aqi_category
                     ++ " (AQI " ++ number_text us_aqi ++ ") - "
                     ++ health_impact aqi_category)) ]).

Variable World : Type.

(** The request to the air-quality service with [raise_for_status] and
    [response.json()], and the clock. *)
Variable open_meteo_air : json -> json -> World -> attempt json * World.
Variable utc_now : World -> string.

(** [WeatherEnvironmentServer.get_air_quality] *)
Definition get_air_quality (latitude longitude : json) : M World json :=
  fun w =>
    match open_meteo_air latitude longitude w with
    | (reply, w') =>
        match (data <-- reply ;;
               air_quality_result data latitude longitude (utc_now w')) with
        | inr envelope => (Return envelope, w')
        | inl message =>
            (Return (failure ("Air quality data error: " ++ message)), w')
        end
    end.

End AirQuality.


End WeatherEnvironmentServer.

(* ================================================================== *)
(** ** agent.py: the shape of the history that [chat] leaves *)

Module Transcript.

Import Agent.

(** Turns made of whole rounds of the [while]: an assistant turn that
    carries at least one request, then one tool turn per request, in the
    order of the requests and with their ids. *)
Inductive rounds : list Turn -> Prop :=
| rounds_done : rounds []
| rounds_more :
    forall (text : option string) (calls : list ToolCall)
           (texts : list string) (rest : list Turn),
      calls <> [] ->
      length texts = length calls ->
      rounds rest ->
      rounds (assistant text (Some calls) :: tool_turns calls texts ++ rest).

Section Endless.

Variable World : Type.
Variable create :
  option string -> option string -> list Turn -> list AgentTools.Tool ->
  M World Message.
Variable get_system_prompt : M World string.
Variable json_loads : string -> outcome json.
Variable json_dumps : json -> string.
Variable servers : AgentTools.Call -> M World json.

(** The model never stops asking: whatever it is sent, the endpoint
    returns a message with requests, and these decode and dispatch from
    any state of the outside. *)
Definition insists : Prop :=
  (forall w : World, exists (prompt : string) (w' : World),
      get_system_prompt w = (Return prompt, w')) /\
  (forall (c mo : option string) (ms : list Turn) (w : World),
      exists (m : Message) (w' : World),
        create c mo ms AgentTools.TOOLS w = (Return m, w') /\
        requested m <> [] /\
        forall w0 : World, exists (turns : list Turn) (w1 : World),
            dispatched World json_loads json_dumps servers
              w0 (requested m) turns w1).

End Endless.

End Transcript.

(* ================================================================== *)
(** ** agent.py: [main], the interactive loop *)

Module Session.

Import Agent.

Local Open Scope py_scope.

(** How [main] ends: with the error of the client constructor, which is
    raised before the [try]; or as the [while True] is left: by [break], by
    the [EOFError] of [input] when no line is left, by an exception of
    [chat], or because the fuel given to a [chat] ran out. *)
Inductive ending : Type :=
| NoClient
| Exited
| EndOfInput
| Failed (e : exn)
| OutOfFuel.

Section Main.

Variable World : Type.
Variable create :
  option string -> option string -> list Turn -> list AgentTools.Tool ->
  M World Message.
Variable get_system_prompt : M World string.
Variable json_loads : string -> outcome json.
Variable json_dumps : json -> string.
Variable servers : AgentTools.Call -> M World json.

(** [str.strip] and [str.lower] *)
Variable strip : string -> string.
Variable lower : string -> string.

(** [core_server.close()] and [weather_server.close()] *)
Variable core_close : M World unit.
Variable weather_close : M World unit.

(** [cleanup] of agent_tools.py *)
Definition cleanup : M World unit :=
  core_close ;;; weather_close.

(** [MapAgent()]: the key and the model name come from the environment,
    [verbose] is the constant of the module.  [OpenAI(api_key=None)] with
    no key in the environment raises, and then there is no agent. *)
Definition new_agent (api_key model : option string) : option MapAgent :=
  match api_key with
  | Some key => Some (mkMapAgent (Some key) model [] true)
  | None => None
  end.

(** The [while True]; [inputs] are the lines that [input] will return, the
    prints are left out. *)
Fixpoint while_true (fuel : nat) (inputs : list string) (s : State World)
  : ending * State World :=
  match inputs with
  | [] => (EndOfInput, s)
  | line :: rest =>
      let user_input := strip line in
      if (lower user_input =? "exit")%string then (Exited, s)
      else if (lower user_input =? "reset")%string then
        while_true fuel rest (reset_conversation (fst s), snd s)
      else if (user_input =? EmptyString)%string then while_true fuel rest s
      else
        match
          chat World create get_system_prompt json_loads json_dumps servers
            fuel user_input s
        with
        | (Return response, s') => while_true fuel rest s'
        | (Raise e, s') => (Failed e, s')
        | (Unfinished, s') => (OutOfFuel, s')
        end
  end.

(** The [finally]: [cleanup] runs however the loop was left, and an
    exception of [cleanup] takes the place of the loop's ending. *)
Definition finally (r : ending * State World) : ending * State World :=
  match cleanup (snd (snd r)) with
  | (Return _, w) => (fst r, (fst (snd r), w))
  | (Raise e, w) => (Failed e, (fst (snd r), w))
  | (Unfinished, w) => (OutOfFuel, (fst (snd r), w))
  end.

(** [main]: [agent = MapAgent()] stands before the [try], so its error
    leaves [main] without any line read and without [cleanup]. *)
Definition main (api_key model : option string) (fuel : nat)
    (inputs : list string) (w : World) : ending * (option MapAgent * World) :=
  match new_agent api_key model with
  | None => (NoClient, (None, w))
  | Some agent =>
      let r := finally (while_true fuel inputs (agent, w)) in
      (fst r, (Some (fst (snd r)), snd (snd r)))
  end.

End Main.

End Session.

(* ================================================================== *)
(** ** A small world for running the definitions *)

Module Sample.

Import Agent.

(** The outside is a log of the requests made to it. *)
Definition World : Type := list string.

Definition ok : json := JObj [ ("success", JBool true) ].

(** Servers that answer every call with a success envelope. *)
Definition servers : AgentTools.Call -> M World json :=
  fun c w => (Return ok, w ++ [ AgentTools.callee c ]).

(** [json.loads] on the two payloads used below: an empty object, and
    text that is not JSON. *)
Definition json_loads (text : string) : outcome json :=
  if text =? "{}" then Return (JObj []) else Raise JSONDecodeError.

(** A rendering that keeps the success flag of an envelope. *)
Definition json_dumps (j : json) : string :=
  match j with
  | JObj (("success", JBool true) :: _) => "success"
  | _ => "failure"
  end.

Definition get_system_prompt : M World string :=
  fun w => (Return "You are a map assistant.", w ++ [ "agent_prompt.txt" ]).

(** An endpoint that is down. *)
Definition create_fails (client model : option string) (messages : list Turn)
    (tools : list AgentTools.Tool) : M World Message :=
  fun w => (Raise (APIError "insufficient_quota"), w ++ [ "create" ]).

(** An endpoint that asks for the given tool calls when the last turn is
    the user's, and answers in words once tool results are there. *)
Definition create_asks (calls : list ToolCall)
    (client model : option string) (messages : list Turn)
    (tools : list AgentTools.Tool) : M World Message :=
  fun w =>
    match last messages (system "") with
    | user _ => (Return (mkMessage None (Some calls)), w ++ [ "create" ])
    | _ => (Return (mkMessage (Some "Done.") None), w ++ [ "create" ])
    end.

Definition agent : MapAgent :=
  mkMapAgent (Some "sk-test") (Some "gpt-4o") [] true.

(** Requests as a model may emit them. *)
Definition places_call : ToolCall :=
  mkToolCall "call_1" "get_frequent_places" "{}".

Definition teleport_call : ToolCall :=
  mkToolCall "call_2" "teleport" "{}".

Definition geocode_call : ToolCall :=
  mkToolCall "call_3" "geocode" "{}".

Definition broken_call : ToolCall :=
  mkToolCall "call_4" "get_frequent_places" "{".

(** A routing service that logs the profile it is asked for. *)
Definition osrm_route (profile : string)
    (origin_lat origin_lon dest_lat dest_lon mode : json) : M World json :=
  fun w => (Return ok, w ++ [ ("route/v1/" ++ profile)%string ]).

(** An air-quality service whose reply holds no index, and a clock. *)
Definition open_meteo_air (latitude longitude : json) (w : World)
  : CoreMapReplies.attempt json * World :=
  (inr (JObj [ ("current", JObj [ ("pm10", JInt 12) ]) ]),
   w ++ [ "air-quality" ]).

Definition utc_now (w : World) : string := "2025-03-03T08:00:00+00:00".

Definition float_le (repr : string) (bound : Z) : bool := false.

(** An endpoint that asks for the same tool call whatever it is sent. *)
Definition create_insists (client model : option string)
    (messages : list Turn) (tools : list AgentTools.Tool) : M World Message :=
  fun w => (Return (mkMessage None (Some [ teleport_call ])), w ++ [ "create" ]).

(** [str.strip] on text whose only white space is the space character. *)
Fixpoint lstrip (l : list ascii) : list ascii :=
  match l with
  | " "%char :: rest => lstrip rest
  | _ => l
  end.

Definition strip (s : string) : string :=
  string_of_list_ascii
    (rev (lstrip (rev (lstrip (list_ascii_of_string s))))).

Definition core_close : M World unit :=
  fun w => (Return tt, w ++ [ "core.aclose" ]).

Definition weather_close : M World unit :=
  fun w => (Return tt, w ++ [ "weather.aclose" ]).

End Sample.

(* ================================================================== *)
(** * Properties of the dispatcher *)

Module DispatcherFacts.

Import AgentTools.

Lemma lookup_tool_unregistered (catalog : list Tool) (n : string) :
  ~ In n (map name catalog) -> lookup_tool catalog n = None.
Proof.
  induction catalog as [| t rest IH]; simpl; intros Hn.
  - reflexivity.
  - destruct (String.eqb_spec (name t) n) as [E | _].
    + exfalso. apply Hn. left. exact E.
    + apply IH. intros Hin. apply Hn. right. exact Hin.
Qed.

Lemma mem_spec (k : string) (l : list string) :
  mem k l = true <-> In k l.
Proof.
  unfold mem. rewrite existsb_exists. split.
  - intros [x [Hin Heq]]. apply String.eqb_eq in Heq. subst x. exact Hin.
  - intros Hin. exists k. split; [exact Hin | apply String.eqb_refl].
Qed.

(** A name outside the catalog falls through every [elif]. *)
Lemma route_unregistered (tool_name : string) (arguments : json) :
  ~ In tool_name registered_names ->
  route tool_name arguments = Return (Envelope (unknown_tool tool_name)).
Proof.
  intros Hn. unfold route.
  repeat match goal with
  | |- context [String.eqb tool_name ?s] =>
      destruct (String.eqb_spec tool_name s) as [E | _];
      [ exfalso; apply Hn; rewrite E; unfold registered_names; simpl; tauto | ]
  end.
  reflexivity.
Qed.

(** [execute_tool] is its routing followed by the handler call. *)
Lemma execute_tool_route (World : Type) (servers : Call -> M World json)
    (tool_name : string) (arguments : json) (w : World) :
  execute_tool World servers tool_name arguments w =
  match route tool_name arguments with
  | Return (Invoke c) => servers c w
  | Return (Envelope e) => (Return e, w)
  | Raise e => (Raise e, w)
  | Unfinished => (Unfinished, w)
  end.
Proof.
  unfold execute_tool, bind, pure, ret.
  destruct (route tool_name arguments) as [[c | e] | e |]; reflexivity.
Qed.

Lemma registered_cases (n : string) :
  In n registered_names ->
  n = "geocode" \/ n = "reverse_geocode" \/ n = "search_poi" \/
  n = "get_place_details" \/ n = "get_route" \/ n = "get_frequent_places" \/
  n = "summarize_travel_stats" \/ n = "get_typical_route" \/
  n = "get_current_weather" \/ n = "get_air_quality" \/
  n = "get_astronomy_data".
Proof.
  unfold registered_names. simpl. intuition.
Qed.

(** Case analysis on the lookups that [route] makes in [args]. *)
Ltac split_lookups args :=
  repeat match goal with
  | |- context [dict_get args ?k] =>
      let E := fresh "E" in destruct (dict_get args k) eqn:E
  end.

(** C6: a tool name that is not in the catalog gets the failure envelope
    with ["Unknown tool: <name>"], whatever the arguments are, and nothing
    is raised and nothing outside is touched. *)
Theorem execute_tool_unknown_name (World : Type) (servers : Call -> M World json)
    (tool_name : string) (arguments : json) (w : World) :
  ~ In tool_name registered_names ->
  execute_tool World servers tool_name arguments w =
  (Return (JObj [ ("success", JBool false);
                  ("error", JStr ("Unknown tool: " ++ tool_name)) ]), w).
Proof.
  intros Hn. rewrite execute_tool_route, (route_unregistered _ _ Hn).
  reflexivity.
Qed.

Lemma execute_tool_unknown_name_witness :
  length registered_names = 11 /\
  execute_tool Sample.World Sample.servers "teleport" (JArr []) [] =
  (Return (JObj [ ("success", JBool false);
                  ("error", JStr "Unknown tool: teleport") ]), []).
Proof.
  split; [reflexivity |].
  apply (execute_tool_unknown_name Sample.World Sample.servers "teleport"
           (JArr []) []).
  unfold registered_names. simpl.
  intros H. repeat (destruct H as [H | H]; [discriminate H |]). exact H.
Defined.

(** C8, as stated, fails: [search_poi] called with the empty mapping
    leaves out its three optional keys, and yet no handler is invoked with
    their defaults: [KeyError] for ["latitude"] leaves [execute_tool] and
    the servers are not reached. *)
Lemma defaults_need_required_keys :
  In "search_poi" registered_names /\
  map p_name (optional_properties "search_poi") = [ "radius"; "category"; "key" ] /\
  (forall k : string,
     dict_get (@nil (string * json)) k = None) /\
  execute_tool Sample.World Sample.servers "search_poi" (JObj []) []
  = (Raise (KeyError "latitude"), []) /\
  ~ (exists c : Call,
       execute_tool Sample.World Sample.servers "search_poi" (JObj []) []
       = Sample.servers c []).
Proof.
  split; [unfold registered_names; simpl; tauto |].
  split; [reflexivity |].
  split; [reflexivity |].
  split; [reflexivity |].
  intros [c H]. discriminate H.
Qed.

(** C8, amended: when a registered tool is called with a mapping that
    holds its required keys, the handler of that name is invoked, and every
    optional parameter the mapping leaves out is passed as the default the
    schema declares for it, [None] when the schema declares none: radius
    1000, category "amenity" and key [None] for [search_poi], mode
    "driving" for [get_route], min_visits 3 for [get_frequent_places],
    include_forecast [False] for [get_current_weather], [None] for the
    dates and the hour. *)
Theorem execute_tool_applies_defaults :
  optional_defaults =
  [ ("geocode", []);
    ("reverse_geocode", []);
    ("search_poi",
     [ ("radius", JInt 1000); ("category", JStr "amenity"); ("key", JNull) ]);
    ("get_place_details", []);
    ("get_route", [ ("mode", JStr "driving") ]);
    ("get_frequent_places",
     [ ("start_date", JNull); ("end_date", JNull); ("min_visits", JInt 3) ]);
    ("summarize_travel_stats", [ ("start_date", JNull); ("end_date", JNull) ]);
    ("get_typical_route", [ ("time_of_day", JNull) ]);
    ("get_current_weather", [ ("include_forecast", JBool false) ]);
    ("get_air_quality", []);
    ("get_astronomy_data", [ ("date", JNull) ]) ] /\
  forall (World : Type) (servers : Call -> M World json)
         (tool_name : string) (args : list (string * json)) (w : World),
    In tool_name registered_names ->
    first_missing args (required_keys tool_name) = None ->
    exists c : Call,
      execute_tool World servers tool_name (JObj args) w = servers c w /\
      callee c = tool_name /\
      forall p : Property,
        In p (optional_properties tool_name) ->
        dict_get args (p_name p) = None ->
        dict_get (kwargs c) (p_name p) = Some (schema_default p).
Proof.
  split; [reflexivity |].
  intros World servers tool_name args w Hreg Hreq.
  rewrite execute_tool_route.
  apply registered_cases in Hreg.
  revert Hreq.
  repeat (destruct Hreg as [Hreg | Hreg]); subst tool_name;
    cbn [route String.eqb Ascii.eqb Bool.eqb getitem get obind];
    cbn; split_lookups args; intros Hreq; try discriminate Hreq;
    (eexists; split; [reflexivity | split; [reflexivity |]]);
    intros p Hp Hnone;
    repeat (destruct Hp as [Hp | Hp]; [subst p; cbn in Hnone |- *; congruence |]);
    destruct Hp.
Qed.

Lemma execute_tool_applies_defaults_witness :
  let args := [ ("latitude", JInt 48); ("longitude", JInt 2);
                ("category", JStr "shop") ] in
  In "search_poi" registered_names /\
  first_missing args (required_keys "search_poi") = None /\
  exists c : Call,
    execute_tool Sample.World Sample.servers "search_poi" (JObj args) []
    = Sample.servers c [] /\
    callee c = "search_poi" /\
    forall p : Property,
      In p (optional_properties "search_poi") ->
      dict_get args (p_name p) = None ->
      dict_get (kwargs c) (p_name p) = Some (schema_default p).
Proof.
  intros args.
  assert (Hreg : In "search_poi" registered_names)
    by (unfold registered_names; simpl; tauto).
  split; [exact Hreg | split; [reflexivity |]].
  apply (proj2 execute_tool_applies_defaults Sample.World Sample.servers
           "search_poi" args [] Hreg).
  reflexivity.
Defined.

(** C2, as stated, fails: [geocode] called without ["query"], or
    [reverse_geocode] without ["latitude"], raises [KeyError] out of
    [execute_tool] although no handler raises. *)
Lemma execute_tool_missing_key_raises :
  (forall c w, exists e w', Sample.servers c w = (Return e, w')) /\
  execute_tool Sample.World Sample.servers "geocode" (JObj []) []
  = (Raise (KeyError "query"), []) /\
  execute_tool Sample.World Sample.servers "reverse_geocode"
    (JObj [ ("longitude", JInt 2) ]) []
  = (Raise (KeyError "latitude"), []) /\
  ~ (exists envelope w',
       execute_tool Sample.World Sample.servers "geocode" (JObj []) []
       = (Return envelope, w')).
Proof.
  split; [| split; [| split]].
  - intros c w. eexists. eexists. reflexivity.
  - reflexivity.
  - reflexivity.
  - intros [envelope [w' H]]. discriminate H.
Qed.

(** C2, amended: what [execute_tool] does with a mapping is decided by the
    first key, in the order of the schema's ["required"] list, that the
    mapping lacks.  If there is one, [KeyError] for that key leaves
    [execute_tool] and nothing outside is touched.  If there is none, a
    registered name gets exactly what its handler does, and any other name
    gets the unknown-tool envelope. *)
Theorem execute_tool_outcome (World : Type) (servers : Call -> M World json)
    (tool_name : string) (args : list (string * json)) (w : World) :
  match first_missing args (required_keys tool_name) with
  | Some k =>
      execute_tool World servers tool_name (JObj args) w = (Raise (KeyError k), w)
  | None =>
      if mem tool_name registered_names
      then exists c : Call,
             callee c = tool_name /\
             execute_tool World servers tool_name (JObj args) w = servers c w
      else execute_tool World servers tool_name (JObj args) w
           = (Return (unknown_tool tool_name), w)
  end.
Proof.
  destruct (in_dec string_dec tool_name registered_names) as [Hreg | Hn].
  - rewrite execute_tool_route.
    apply registered_cases in Hreg.
    repeat (destruct Hreg as [Hreg | Hreg]); subst tool_name;
      cbn [route String.eqb Ascii.eqb Bool.eqb getitem get obind];
      cbn; split_lookups args; cbn [obind];
      solve [ reflexivity
            | eexists; split; [| reflexivity]; reflexivity ].
  - rewrite execute_tool_route, (route_unregistered _ _ Hn).
    unfold required_keys.
    rewrite (lookup_tool_unregistered TOOLS tool_name Hn).
    cbn [first_missing].
    destruct (mem tool_name registered_names) eqn:Hm.
    + apply mem_spec in Hm. contradiction.
    + reflexivity.
Qed.

End DispatcherFacts.

(* ================================================================== *)
(** * Properties of the routing profile *)

Module RouteFacts.

Import AgentTools.

Lemma mode_map_keys (k : string) :
  ~ In k [ "driving"; "walking"; "cycling"; "car"; "foot"; "bike" ] ->
  dict_get CoreMapServer.mode_map k = None.
Proof.
  intros Hk. unfold CoreMapServer.mode_map. cbn [dict_get].
  repeat match goal with
  | |- context [String.eqb ?s k] =>
      destruct (String.eqb_spec s k) as [E | _];
      [ exfalso; apply Hk; rewrite <- E; simpl; tauto | ]
  end.
  reflexivity.
Qed.

Section Profile.

Variable lower : string -> string.

Lemma profile_of_found (mode p : string) :
  dict_get CoreMapServer.mode_map (lower mode) = Some p ->
  CoreMapServer.profile_of lower mode = p.
Proof.
  unfold CoreMapServer.profile_of. intros H. rewrite H. reflexivity.
Qed.

(** The profile is always one of the three the routing service knows. *)
Lemma profile_of_range (mode : string) :
  In (CoreMapServer.profile_of lower mode) [ "car"; "foot"; "bike" ].
Proof.
  unfold CoreMapServer.profile_of, CoreMapServer.mode_map. cbn [dict_get].
  repeat match goal with
  | |- context [String.eqb ?s (lower mode)] =>
      destruct (String.eqb s (lower mode))
  end; simpl; tauto.
Qed.

End Profile.

(** C9: whatever string arrives under ["mode"], [execute_tool] hands it to
    [get_route] unchecked, and the routing request is made with the
    profile that the lower-cased mode has in [mode_map] (driving and car
    give car, walking and foot give foot, cycling and bike give bike), or
    with car when the lower-cased mode is not a key of the map; no mode is
    answered with a failure envelope of the dispatcher's or the handler's
    own making. *)
Theorem get_route_profile_choice
    (lower : string -> string) (World : Type)
    (osrm_route : string -> json -> json -> json -> json -> json -> M World json)
    (others : Call -> M World json)
    (args : list (string * json))
    (origin_lat origin_lon dest_lat dest_lon : json) (mode : string) (w : World) :
  dict_get args "origin_lat" = Some origin_lat ->
  dict_get args "origin_lon" = Some origin_lon ->
  dict_get args "dest_lat" = Some dest_lat ->
  dict_get args "dest_lon" = Some dest_lon ->
  dict_get args "mode" = Some (JStr mode) ->
  execute_tool World (CoreMapServer.servers lower World osrm_route others)
    "get_route" (JObj args) w
  = osrm_route (CoreMapServer.profile_of lower mode)
      origin_lat origin_lon dest_lat dest_lon (JStr mode) w /\
  (lower mode = "driving" \/ lower mode = "car" ->
   CoreMapServer.profile_of lower mode = "car") /\
  (lower mode = "walking" \/ lower mode = "foot" ->
   CoreMapServer.profile_of lower mode = "foot") /\
  (lower mode = "cycling" \/ lower mode = "bike" ->
   CoreMapServer.profile_of lower mode = "bike") /\
  (~ In (lower mode) [ "driving"; "walking"; "cycling"; "car"; "foot"; "bike" ] ->
   CoreMapServer.profile_of lower mode = "car").
Proof.
  intros Hola Holo Hdla Hdlo Hmode.
  split; [| split; [| split; [| split]]].
  - rewrite DispatcherFacts.execute_tool_route.
    cbn [route String.eqb Ascii.eqb Bool.eqb getitem get obind].
    rewrite Hola, Holo, Hdla, Hdlo, Hmode. cbn [obind].
    reflexivity.
  - intros [H | H]; apply profile_of_found; rewrite H; reflexivity.
  - intros [H | H]; apply profile_of_found; rewrite H; reflexivity.
  - intros [H | H]; apply profile_of_found; rewrite H; reflexivity.
  - intros H. unfold CoreMapServer.profile_of.
    rewrite (mode_map_keys _ H). reflexivity.
Qed.

Lemma get_route_profile_choice_witness :
  let args := [ ("origin_lat", JInt 48); ("origin_lon", JInt 2);
                ("dest_lat", JInt 49); ("dest_lon", JInt 3);
                ("mode", JStr "Hovercraft") ] in
  CoreMapServer.profile_of CoreMapServer.ascii_lower "Hovercraft" = "car" /\
  (execute_tool Sample.World
     (CoreMapServer.servers CoreMapServer.ascii_lower Sample.World
        Sample.osrm_route Sample.servers)
     "get_route" (JObj args) []
   = Sample.osrm_route
       (CoreMapServer.profile_of CoreMapServer.ascii_lower "Hovercraft")
       (JInt 48) (JInt 2) (JInt 49) (JInt 3) (JStr "Hovercraft") [] /\
   (CoreMapServer.ascii_lower "Hovercraft" = "driving" \/
    CoreMapServer.ascii_lower "Hovercraft" = "car" ->
    CoreMapServer.profile_of CoreMapServer.ascii_lower "Hovercraft" = "car") /\
   (CoreMapServer.ascii_lower "Hovercraft" = "walking" \/
    CoreMapServer.ascii_lower "Hovercraft" = "foot" ->
    CoreMapServer.profile_of CoreMapServer.ascii_lower "Hovercraft" = "foot") /\
   (CoreMapServer.ascii_lower "Hovercraft" = "cycling" \/
    CoreMapServer.ascii_lower "Hovercraft" = "bike" ->
    CoreMapServer.profile_of CoreMapServer.ascii_lower "Hovercraft" = "bike") /\
   (~ In (CoreMapServer.ascii_lower "Hovercraft")
        [ "driving"; "walking"; "cycling"; "car"; "foot"; "bike" ] ->
    CoreMapServer.profile_of CoreMapServer.ascii_lower "Hovercraft" = "car")).
Proof.
  intros args. split; [reflexivity |].
  apply (get_route_profile_choice CoreMapServer.ascii_lower Sample.World
           Sample.osrm_route Sample.servers args
           (JInt 48) (JInt 2) (JInt 49) (JInt 3) "Hovercraft" []);
    reflexivity.
Defined.

End RouteFacts.

(* ================================================================== *)
(** * Properties of the history server *)

Module HistoryFacts.

Import HistoryMapServer HistoryAnalytics.

Example frequent_places_sample :
  frequent_places sample_trips 3 =
  [ mkFrequentPlace "Home" (Int 10) (Int 20) 4;
    mkFrequentPlace "Office" (Int 11) (Int 21) 3 ].
Proof. reflexivity. Qed.

Example frequent_places_sample_window :
  get_frequent_places sample_trips (Some "2025-03-02") (Some "2025-03-02") 2 =
  JObj [ ("success", JBool true);
         ("time_window",
          JObj [ ("start_date", JStr "2025-03-02");
                 ("end_date", JStr "2025-03-02") ]);
         ("total_places", JInt 2);
         ("places",
          JArr [ JObj [ ("label", JStr "Office"); ("latitude", JInt 11);
                        ("longitude", JInt 21); ("visit_count", JInt 2) ];
                 JObj [ ("label", JStr "Home"); ("latitude", JInt 10);
                        ("longitude", JInt 20); ("visit_count", JInt 2) ] ]) ].
Proof. reflexivity. Qed.

(** *** The date filter *)

Lemma filter_none {A} (f : A -> bool) (l : list A) :
  (forall x, In x l -> f x = false) -> filter f l = [].
Proof.
  induction l as [| x rest IH]; simpl; intros H.
  - reflexivity.
  - rewrite (H x (or_introl eq_refl)). apply IH.
    intros y Hy. apply H. right. exact Hy.
Qed.

Lemma filter_trips_spec (trip_data : list Trip) (start_date end_date : option string)
    (t : Trip) :
  In t (filter_trips trip_data start_date end_date) <->
  In t trip_data /\ in_window start_date end_date t.
Proof.
  unfold filter_trips, in_window.
  destruct (truthy start_date), (truthy end_date);
    repeat rewrite filter_In; intuition congruence.
Qed.


Lemma filter_and {A} (f g : A -> bool) (l : list A) :
  filter g (filter f l) = filter (fun x => andb (f x) (g x)) l.
Proof.
  induction l as [| x rest IH]; simpl; [reflexivity |].
  destruct (f x); simpl; [destruct (g x) |]; rewrite IH; reflexivity.
Qed.

Lemma filter_true {A} (l : list A) : filter (fun _ => true) l = l.
Proof.
  induction l as [| x rest IH]; simpl; [reflexivity | rewrite IH; reflexivity].
Qed.

Lemma filter_trips_one_pass (trip_data : list Trip)
    (start_date end_date : option string) :
  filter_trips trip_data start_date end_date
  = filter (in_windowb start_date end_date) trip_data.
Proof.
  unfold filter_trips, in_windowb.
  destruct (truthy start_date), (truthy end_date).
  - apply filter_and.
  - apply filter_ext. intros t. rewrite andb_true_r. reflexivity.
  - apply filter_ext. intros t. reflexivity.
  - symmetry. apply filter_true.
Qed.


(** *** Counting the visits *)

Lemma dict_get_visit (key : string) (p : Place)
    (pv : list (string * Visits)) (k : string) :
  dict_get (visit key p pv) k =
  if String.eqb key k
  then Some (mkVisits
               (match dict_get pv key with
                | Some d => count d + 1
                | None => 1
                end) (lat p, lon p) (label p))
  else dict_get pv k.
Proof.
  induction pv as [| [k' d] rest IH]; simpl.
  - reflexivity.
  - destruct (String.eqb_spec k' key) as [E | N].
    + subst k'. simpl. destruct (String.eqb key k); reflexivity.
    + simpl. rewrite IH.
      destruct (String.eqb_spec k' k) as [E' | N'].
      * subst k'. destruct (String.eqb_spec key k) as [E'' | _].
        -- symmetry in E''. contradiction.
        -- reflexivity.
      * reflexivity.
Qed.

Lemma keys_visit (key : string) (p : Place) (pv : list (string * Visits))
    (k : string) :
  In k (map fst (visit key p pv)) <-> k = key \/ In k (map fst pv).
Proof.
  induction pv as [| [k' d] rest IH]; simpl.
  - intuition.
  - destruct (String.eqb_spec k' key) as [E | N]; simpl.
    + subst k'. intuition.
    + rewrite IH. intuition.
Qed.

Lemma NoDup_visit (key : string) (p : Place) (pv : list (string * Visits)) :
  NoDup (map fst pv) -> NoDup (map fst (visit key p pv)).
Proof.
  induction pv as [| [k' d] rest IH]; simpl; intros Hnd.
  - constructor; [intros [] | constructor].
  - inversion Hnd as [| x l Hnot Hrest]; subst.
    destruct (String.eqb_spec k' key) as [E | N]; simpl.
    + constructor; assumption.
    + constructor.
      * rewrite keys_visit. intros [E | Hin]; [contradiction | contradiction].
      * apply IH. exact Hrest.
Qed.

Lemma dict_get_In {V} (d : list (string * V)) (k : string) (v : V) :
  dict_get d k = Some v -> In (k, v) d.
Proof.
  induction d as [| [k' v'] rest IH]; simpl; intros H.
  - discriminate H.
  - destruct (String.eqb_spec k' k) as [E | N].
    + left. congruence.
    + right. apply IH. exact H.
Qed.

Lemma In_dict_get {V} (d : list (string * V)) (k : string) (v : V) :
  NoDup (map fst d) -> In (k, v) d -> dict_get d k = Some v.
Proof.
  induction d as [| [k' v'] rest IH]; simpl; intros Hnd Hin.
  - destruct Hin.
  - inversion Hnd as [| x l Hnot Hrest]; subst.
    destruct Hin as [E | Hin].
    + inversion E; subst. rewrite String.eqb_refl. reflexivity.
    + destruct (String.eqb_spec k' k) as [E | N].
      * subst k'. exfalso. apply Hnot.
        change k with (fst (k, v)). apply in_map. exact Hin.
      * apply IH; assumption.
Qed.

Lemma visits_of_app (k : string) (l1 l2 : list Place) :
  visits_of k (l1 ++ l2) = (visits_of k l1 + visits_of k l2)%Z.
Proof.
  induction l1 as [| p rest IH]; simpl.
  - reflexivity.
  - rewrite IH. lia.
Qed.

Lemma counted_visit (pv : list (string * Visits)) (seen : list Place) (p : Place) :
  counted pv seen -> counted (visit (place_key p) p pv) (seen ++ [ p ]).
Proof.
  intros [Hnd Hcount]. split.
  - apply NoDup_visit. exact Hnd.
  - intros k. rewrite dict_get_visit, visits_of_app. simpl.
    destruct (String.eqb_spec (place_key p) k) as [E | N].
    + subst k. simpl. specialize (Hcount (place_key p)).
      destruct (dict_get pv (place_key p)) as [d |].
      * destruct Hcount as [Hc [Hpos _]].
        repeat split; try lia. 
      * repeat split; try lia.
    + specialize (Hcount k).
      destruct (dict_get pv k) as [d |].
      * destruct Hcount as [Hc [Hpos Hkey]]. repeat split; try lia. exact Hkey.
      * lia.
Qed.

Lemma counted_visit_places (places : list Place) :
  forall (pv : list (string * Visits)) (seen : list Place),
    counted pv seen -> counted (visit_places places pv) (seen ++ places).
Proof.
  induction places as [| p rest IH]; intros pv seen H; simpl.
  - rewrite app_nil_r. exact H.
  - change (seen ++ p :: rest) with (seen ++ [ p ] ++ rest).
    rewrite app_assoc. apply IH. apply counted_visit. exact H.
Qed.

Lemma count_visits_endpoints (trips : list Trip) :
  count_visits trips = visit_places (endpoints trips) [].
Proof.
  unfold count_visits, visit_places. generalize (@nil (string * Visits)).
  induction trips as [| t rest IH]; intros acc; simpl.
  - reflexivity.
  - rewrite IH. reflexivity.
Qed.

Lemma counted_count_visits (trips : list Trip) :
  counted (count_visits trips) (endpoints trips).
Proof.
  rewrite count_visits_endpoints.
  apply (counted_visit_places (endpoints trips) [] []).
  split; [constructor | intros k; reflexivity].
Qed.

(** *** The sort keeps the places *)

Lemma In_insert_desc (x y : FrequentPlace) (l : list FrequentPlace) :
  In x (insert_desc y l) <-> x = y \/ In x l.
Proof.
  induction l as [| z rest IH]; simpl.
  - intuition.
  - destruct (Z.ltb (visit_count y) (visit_count z)); simpl.
    + rewrite IH. intuition.
    + intuition.
Qed.

Lemma In_sort_desc (x : FrequentPlace) (l : list FrequentPlace) :
  In x (sort_desc l) <-> In x l.
Proof.
  unfold sort_desc. induction l as [| y rest IH]; simpl.
  - reflexivity.
  - rewrite In_insert_desc, IH. intuition.
Qed.

Lemma In_frequent_places (trips : list Trip) (min_visits : Z) (p : FrequentPlace) :
  In p (frequent_places trips min_visits) <->
  exists d, dict_get (count_visits trips) (fp_key p) = Some d /\
            p = frequent_place d /\ (min_visits <= count d)%Z.
Proof.
  destruct (counted_count_visits trips) as [Hnd Hcount].
  unfold frequent_places. rewrite In_sort_desc, in_map_iff. split.
  - intros [d [Hp Hd]]. apply filter_In in Hd. destruct Hd as [Hd Hge].
    apply in_map_iff in Hd. destruct Hd as [[k d'] [Hsnd Hin]].
    simpl in Hsnd. subst d'.
    pose proof (In_dict_get _ _ _ Hnd Hin) as Hget.
    pose proof (Hcount k) as Hk. rewrite Hget in Hk.
    destruct Hk as [_ [_ Hkey]].
    exists d. split; [| split].
    + subst p. change (fp_key (frequent_place d)) with (coords_key (coords d)).
      rewrite Hkey. exact Hget.
    + symmetry. exact Hp.
    + apply Z.geb_le. exact Hge.
  - intros [d [Hget [Hp Hge]]]. exists d. split; [symmetry; exact Hp |].
    apply filter_In. split.
    + apply dict_get_In in Hget.
      change d with (snd (fp_key p, d)). apply in_map. exact Hget.
    + apply Z.geb_le. exact Hge.
Qed.



End HistoryFacts.

(* ================================================================== *)
(** * Properties of the agent loop *)

Module AgentFacts.

Import Agent.

Lemma with_history_same (a : MapAgent) :
  with_history a (conversation_history a) = a.
Proof. destruct a. reflexivity. Qed.

Lemma with_history_twice (a : MapAgent) (h h' : list Turn) :
  with_history (with_history a h) h' = with_history a h'.
Proof. reflexivity. Qed.

Lemma extends_refl (a : MapAgent) : extends a a.
Proof.
  exists []. rewrite app_nil_r, with_history_same. reflexivity.
Qed.

Lemma extends_trans (a b c : MapAgent) :
  extends a b -> extends b c -> extends a c.
Proof.
  intros [s1 H1] [s2 H2]. exists (s1 ++ s2). subst b c. simpl.
  rewrite app_assoc. reflexivity.
Qed.

Lemma extends_append (a : MapAgent) (turns : list Turn) :
  extends a (with_history a (conversation_history a ++ turns)).
Proof. exists turns. reflexivity. Qed.

Section Loop.

Variable World : Type.
Variable create :
  option string -> option string -> list Turn -> list AgentTools.Tool ->
  M World Message.
Variable get_system_prompt : M World string.
Variable json_loads : string -> outcome json.
Variable json_dumps : json -> string.
Variable servers : AgentTools.Call -> M World json.

Abbreviation for_tool_calls := (for_tool_calls World json_loads json_dumps servers).
Abbreviation dispatched := (dispatched World json_loads json_dumps servers).
Abbreviation completion := (completion World create get_system_prompt).
Abbreviation tool_round :=
  (tool_round World create get_system_prompt json_loads json_dumps servers).
Abbreviation tool_loop :=
  (tool_loop World create get_system_prompt json_loads json_dumps servers).
Abbreviation chat :=
  (chat World create get_system_prompt json_loads json_dumps servers).

(** Requests that all decode and dispatch leave one tool turn each, in
    order. *)
Lemma for_tool_calls_dispatched (calls : list ToolCall) (turns : list Turn)
    (w w' : World) :
  dispatched w calls turns w' ->
  forall a : MapAgent,
    for_tool_calls calls (a, w)
    = (Return tt, (with_history a (conversation_history a ++ turns), w')).
Proof.
  induction 1 as [w | w tc args resp w1 rest turns w2 Hloads Hexec _ IH];
    intros a.
  - simpl. unfold ret. rewrite app_nil_r, with_history_same. reflexivity.
  - simpl. unfold bind, pure, outside, append. simpl.
    rewrite Hloads, Hexec. simpl. rewrite IH. simpl.
    rewrite <- app_assoc. reflexivity.
Qed.

Lemma dispatched_tool_turns (calls : list ToolCall) (turns : list Turn)
    (w w' : World) :
  dispatched w calls turns w' ->
  exists texts : list string,
    length texts = length calls /\ turns = tool_turns calls texts.
Proof.
  induction 1 as [w | w tc args resp w1 rest turns w2 _ _ _ [texts [Hlen Ht]]].
  - exists []. split; reflexivity.
  - exists (json_dumps resp :: texts). split.
    + simpl. rewrite Hlen. reflexivity.
    + subst turns. reflexivity.
Qed.

(** A request whose payload does not decode stops the [for] loop there. *)
Lemma for_tool_calls_undecodable (pre : list ToolCall) (turns : list Turn)
    (w w1 : World) :
  dispatched w pre turns w1 ->
  forall (a : MapAgent) (tc : ToolCall) (post : list ToolCall) (e : exn),
    json_loads (function_arguments tc) = Raise e ->
    for_tool_calls (pre ++ tc :: post) (a, w)
    = (Raise e, (with_history a (conversation_history a ++ turns), w1)).
Proof.
  induction 1 as [w | w tc0 args resp w1 rest turns w2 Hloads Hexec _ IH];
    intros a tc post e Hbad.
  - simpl. unfold bind, pure. rewrite Hbad.
    rewrite app_nil_r, with_history_same. reflexivity.
  - simpl. unfold bind, pure, outside, append. simpl.
    rewrite Hloads, Hexec. simpl. rewrite (IH _ tc post e Hbad). simpl.
    rewrite <- app_assoc. reflexivity.
Qed.

Lemma tool_loop_requests (fuel : nat) (m : Message) (s : State World) :
  requested m <> [] ->
  tool_loop (S fuel) m s = bind (tool_round m) (tool_loop fuel) s.
Proof.
  intros Hreq. simpl. destruct (requested m); [contradiction | reflexivity].
Qed.

Lemma tool_round_dispatched (m : Message) (a : MapAgent) (w w1 : World)
    (turns : list Turn) :
  dispatched w (requested m) turns w1 ->
  tool_round m (a, w)
  = completion
      (with_history a
         (conversation_history a
          ++ assistant (content m) (Some (requested m)) :: turns), w1).
Proof.
  intros Hd. unfold Agent.tool_round, bind at 1 2. unfold append at 1. simpl.
  rewrite (for_tool_calls_dispatched _ _ _ _ Hd). simpl.
  rewrite <- app_assoc. reflexivity.
Qed.

Lemma completion_request (a : MapAgent) (w w1 : World) (prompt : string) :
  get_system_prompt w = (Return prompt, w1) ->
  completion (a, w)
  = (fst (create (client a) (model a) (messages prompt a) AgentTools.TOOLS w1),
     (a, snd (create (client a) (model a) (messages prompt a) AgentTools.TOOLS w1))).
Proof.
  intros Hp. unfold Agent.completion, bind, outside, self. simpl.
  rewrite Hp. simpl.
  destruct (create (client a) (model a) (messages prompt a) AgentTools.TOOLS w1).
  reflexivity.
Qed.

(** *** Nothing is ever taken back from the history *)

Lemma completion_keeps_agent (a a' : MapAgent) (w w' : World)
    (r : outcome Message) :
  completion (a, w) = (r, (a', w')) -> a' = a.
Proof.
  unfold Agent.completion, bind, outside, self. simpl.
  destruct (get_system_prompt w) as [[prompt | e |] w1]; simpl;
    try (intros H; inversion H; reflexivity).
  destruct (create (client a) (model a) (messages prompt a) AgentTools.TOOLS w1)
    as [r' w2].
  intros H; inversion H; reflexivity.
Qed.

Lemma for_tool_calls_extends (calls : list ToolCall) :
  forall (a a' : MapAgent) (w w' : World) (r : outcome unit),
    for_tool_calls calls (a, w) = (r, (a', w')) -> extends a a'.
Proof.
  induction calls as [| tc rest IH]; intros a a' w w' r; simpl.
  - unfold ret. intros H; inversion H; subst. apply extends_refl.
  - unfold bind, pure, outside, append. simpl.
    destruct (json_loads (function_arguments tc)) as [args | e |];
      try (intros H; inversion H; subst; apply extends_refl).
    destruct (AgentTools.execute_tool World servers (function_name tc) args w)
      as [[resp | e |] w1]; simpl;
      try (intros H; inversion H; subst; apply extends_refl).
    intros H. apply IH in H.
    eapply extends_trans; [apply extends_append | exact H].
Qed.

Lemma tool_round_extends (m : Message) (a a' : MapAgent) (w w' : World)
    (r : outcome Message) :
  tool_round m (a, w) = (r, (a', w')) -> extends a a'.
Proof.
  unfold Agent.tool_round, bind at 1 2. unfold append at 1. simpl.
  destruct (for_tool_calls (requested m)
              (with_history a
                 (conversation_history a
                  ++ [ assistant (content m) (Some (requested m)) ]), w))
    as [[[] | e |] [a1 w1]] eqn:Hfor;
    apply for_tool_calls_extends in Hfor;
    intros H.
  - apply completion_keeps_agent in H. subst a'.
    eapply extends_trans; [apply extends_append | exact Hfor].
  - inversion H; subst.
    eapply extends_trans; [apply extends_append | exact Hfor].
  - inversion H; subst.
    eapply extends_trans; [apply extends_append | exact Hfor].
Qed.

Lemma tool_loop_extends (fuel : nat) :
  forall (m : Message) (a a' : MapAgent) (w w' : World) (r : outcome string),
    tool_loop fuel m (a, w) = (r, (a', w')) -> extends a a'.
Proof.
  induction fuel as [| fuel IH]; intros m a a' w w' r; simpl;
    destruct (requested m) as [| tc rest] eqn:Hreq.
  - unfold bind, append, ret. simpl. intros H; inversion H; subst.
    apply extends_append.
  - intros H; inversion H; subst. apply extends_refl.
  - unfold bind, append, ret. simpl. intros H; inversion H; subst.
    apply extends_append.
  - unfold bind at 1.
    destruct (tool_round m (a, w)) as [[next | e |] [a1 w1]] eqn:Hround;
      apply tool_round_extends in Hround; intros H.
    + apply IH in H. eapply extends_trans; eassumption.
    + inversion H; subst. exact Hround.
    + inversion H; subst. exact Hround.
Qed.

Lemma chat_extends (fuel : nat) (user_message : string)
    (a a' : MapAgent) (w w' : World) (r : outcome string) :
  chat fuel user_message (a, w) = (r, (a', w')) ->
  exists suffix : list Turn,
    a' = with_history a (conversation_history a ++ user user_message :: suffix).
Proof.
  unfold Agent.chat, bind at 1 2. unfold append at 1. simpl.
  destruct (completion
              (with_history a (conversation_history a ++ [ user user_message ]), w))
    as [[m | e |] [a1 w1]] eqn:Hc;
    apply completion_keeps_agent in Hc; subst a1; intros H.
  - apply tool_loop_extends in H. destruct H as [suffix H].
    exists suffix. rewrite H. simpl. rewrite <- app_assoc. reflexivity.
  - inversion H; subst. exists []. reflexivity.
  - inversion H; subst. exists []. reflexivity.
Qed.

(** *** The rounds *)

(** C1, amended: in a round whose requests all decode and all dispatch
    without raising, the loop appends the assistant turn that carries the
    requests and then exactly one tool turn per request, in the order of
    the requests and with the id of its request, each as soon as its
    dispatch returns; the next request to the model is made on the history
    that ends with these turns. *)
Theorem tool_round_appends_in_order (fuel : nat) (m : Message)
    (a : MapAgent) (w w1 w2 : World) (turns : list Turn) (prompt : string) :
  requested m <> [] ->
  dispatched w (requested m) turns w1 ->
  get_system_prompt w1 = (Return prompt, w2) ->
  let a' := with_history a
              (conversation_history a
               ++ assistant (content m) (Some (requested m)) :: turns) in
  (exists texts : list string,
     length texts = length (requested m) /\
     turns = tool_turns (requested m) texts) /\
  tool_round m (a, w)
  = (fst (create (client a) (model a) (messages prompt a') AgentTools.TOOLS w2),
     (a', snd (create (client a) (model a) (messages prompt a') AgentTools.TOOLS w2))) /\
  tool_loop (S fuel) m (a, w) = bind (tool_round m) (tool_loop fuel) (a, w).
Proof.
  intros Hreq Hd Hp a'. split; [| split].
  - exact (dispatched_tool_turns _ _ _ _ Hd).
  - rewrite (tool_round_dispatched _ _ _ _ _ Hd).
    exact (completion_request a' w1 w2 prompt Hp).
  - exact (tool_loop_requests fuel m (a, w) Hreq).
Qed.

(** C3, amended: a request whose payload [json.loads] rejects ends the
    conversation turn: the decoding error leaves the loop, the history
    keeps the assistant turn and the tool turns of the requests before the
    bad one, no tool turn is made for the bad request, and neither the
    later requests nor the model are reached. *)
Theorem undecodable_arguments_abort (fuel : nat) (m : Message)
    (a : MapAgent) (w w1 : World)
    (pre : list ToolCall) (tc : ToolCall) (post : list ToolCall)
    (turns : list Turn) (e : exn) :
  requested m = pre ++ tc :: post ->
  dispatched w pre turns w1 ->
  json_loads (function_arguments tc) = Raise e ->
  tool_loop (S fuel) m (a, w)
  = (Raise e,
     (with_history a
        (conversation_history a
         ++ assistant (content m) (Some (requested m)) :: turns), w1)).
Proof.
  intros Hreq Hd Hbad.
  rewrite tool_loop_requests
    by (rewrite Hreq; destruct pre; discriminate).
  pose proof (for_tool_calls_undecodable _ _ _ _ Hd
                (with_history a
                   (conversation_history a
                    ++ [ assistant (content m) (Some (requested m)) ]))
                tc post e Hbad) as Hfor.
  rewrite <- Hreq in Hfor.
  unfold bind at 1. unfold Agent.tool_round, bind at 1 2. unfold append at 1.
  simpl. rewrite Hfor. simpl.
  rewrite <- app_assoc. reflexivity.
Qed.

(** C4, amended: when the endpoint raises, [chat] raises the same error,
    and the history keeps every turn appended before the failing request:
    the user turn when the first request fails, and also the assistant
    turn and the tool turns of the round when a later request fails.
    Whatever the outcome of [chat], the history it leaves is the one it
    found followed by the user turn and further turns. *)
Theorem endpoint_failure_keeps_turns (fuel : nat) (user_message : string)
    (a : MapAgent) (w : World) :
  (forall (w1 w2 : World) (prompt : string) (e : exn),
     get_system_prompt w = (Return prompt, w1) ->
     create (client a) (model a)
       (system prompt :: conversation_history a ++ [ user user_message ])
       AgentTools.TOOLS w1 = (Raise e, w2) ->
     chat fuel user_message (a, w)
     = (Raise e,
        (with_history a (conversation_history a ++ [ user user_message ]), w2))) /\
  (forall (m : Message) (turns : list Turn) (w1 w2 w3 : World)
          (prompt : string) (e : exn),
     requested m <> [] ->
     dispatched w (requested m) turns w1 ->
     get_system_prompt w1 = (Return prompt, w2) ->
     create (client a) (model a)
       (system prompt
        :: conversation_history a
           ++ assistant (content m) (Some (requested m)) :: turns)
       AgentTools.TOOLS w2 = (Raise e, w3) ->
     tool_loop (S fuel) m (a, w)
     = (Raise e,
        (with_history a
           (conversation_history a
            ++ assistant (content m) (Some (requested m)) :: turns), w3))) /\
  (forall (r : outcome string) (a' : MapAgent) (w' : World),
     chat fuel user_message (a, w) = (r, (a', w')) ->
     exists suffix : list Turn,
       a' = with_history a
              (conversation_history a ++ user user_message :: suffix)).
Proof.
  split; [| split].
  - intros w1 w2 prompt e Hp Hc.
    unfold Agent.chat, bind at 1 2. unfold append at 1. simpl.
    rewrite (completion_request _ w w1 prompt Hp).
    unfold messages. simpl. rewrite Hc. reflexivity.
  - intros m turns w1 w2 w3 prompt e Hreq Hd Hp Hc.
    rewrite (tool_loop_requests fuel m (a, w) Hreq).
    unfold bind at 1. rewrite (tool_round_dispatched _ _ _ _ _ Hd).
    rewrite (completion_request _ w1 w2 prompt Hp).
    unfold messages. simpl. rewrite Hc. reflexivity.
  - intros r a' w'. apply chat_extends.
Qed.

(** C5: when the first reply of the model carries no tool request, [chat]
    makes that one request only, appends the user turn and one assistant
    turn, and returns the reply's text, or the fixed apology when the text
    is empty or missing. *)
Theorem chat_without_tool_calls (fuel : nat) (user_message : string)
    (a : MapAgent) (w w1 w2 : World) (prompt : string) (m : Message) :
  get_system_prompt w = (Return prompt, w1) ->
  create (client a) (model a)
    (system prompt :: conversation_history a ++ [ user user_message ])
    AgentTools.TOOLS w1 = (Return m, w2) ->
  requested m = [] ->
  chat fuel user_message (a, w)
  = (Return (content_or_fallback (content m)),
     (with_history a
        (conversation_history a
         ++ [ user user_message;
              assistant (Some (content_or_fallback (content m))) None ]),
      w2)) /\
  (forall (c : ascii) (s : string),
     content m = Some (String c s) ->
     content_or_fallback (content m) = String c s) /\
  (content m = None \/ content m = Some "" ->
   content_or_fallback (content m)
   = "I apologize, but I couldn't generate a response.").
Proof.
  intros Hp Hc Hreq. split; [| split].
  - unfold Agent.chat, bind at 1 2. unfold append at 1. simpl.
    rewrite (completion_request _ w w1 prompt Hp).
    unfold messages. simpl. rewrite Hc. simpl.
    destruct fuel; simpl; rewrite Hreq;
      unfold bind, append, ret; simpl;
      rewrite <- app_assoc; reflexivity.
  - intros c s Hs. rewrite Hs. reflexivity.
  - intros [Hn | Hn]; rewrite Hn; reflexivity.
Qed.

End Loop.

(** C7: [reset_conversation] leaves an empty history, so that the next
    request to the model holds the system turn only, and it changes
    neither the client nor the model name nor the verbosity; the catalog
    is a constant of the module. *)
Theorem reset_conversation_clears (a : MapAgent) :
  conversation_history (reset_conversation a) = [] /\
  (forall prompt : string,
     messages prompt (reset_conversation a) = [ system prompt ]) /\
  client (reset_conversation a) = client a /\
  model (reset_conversation a) = model a /\
  verbose (reset_conversation a) = verbose a /\
  reset_conversation (reset_conversation a) = reset_conversation a.
Proof.
  repeat split.
Qed.

(** C1, as stated, fails: a round with one request, [geocode] without its
    query, ends with no tool turn at all. *)
Lemma round_without_tool_turn :
  let result :=
    chat Sample.World (Sample.create_asks [ Sample.geocode_call ])
      Sample.get_system_prompt Sample.json_loads Sample.json_dumps
      Sample.servers 3 "Where is the Eiffel Tower?" (Sample.agent, []) in
  result
  = (Raise (KeyError "query"),
     (with_history Sample.agent
        [ user "Where is the Eiffel Tower?";
          assistant None (Some [ Sample.geocode_call ]) ],
      [ "agent_prompt.txt"; "create" ])) /\
  forall text : string,
    ~ In (tool "call_3" text) (conversation_history (fst (snd result))).
Proof.
  split.
  - reflexivity.
  - intros text H. simpl in H.
    destruct H as [H | [H | H]]; [discriminate H | discriminate H | exact H].
Qed.

Lemma tool_round_appends_in_order_witness :
  tool_round Sample.World (Sample.create_asks [])
    Sample.get_system_prompt Sample.json_loads Sample.json_dumps Sample.servers
    (mkMessage None (Some [ Sample.places_call; Sample.teleport_call ]))
    (Sample.agent, [])
  = (Return (mkMessage (Some "Done.") None),
     (with_history Sample.agent
        [ assistant None (Some [ Sample.places_call; Sample.teleport_call ]);
          tool "call_1" "success"; tool "call_2" "failure" ],
      [ "get_frequent_places"; "agent_prompt.txt"; "create" ])).
Proof.
  assert (Hd : dispatched Sample.World Sample.json_loads Sample.json_dumps
                 Sample.servers []
                 [ Sample.places_call; Sample.teleport_call ]
                 [ tool "call_1" "success"; tool "call_2" "failure" ]
                 [ "get_frequent_places" ]).
  { apply (dispatched_cons Sample.World Sample.json_loads Sample.json_dumps
             Sample.servers [] Sample.places_call (JObj []) Sample.ok
             [ "get_frequent_places" ]);
      [reflexivity | reflexivity |].
    apply (dispatched_cons Sample.World Sample.json_loads Sample.json_dumps
             Sample.servers _ Sample.teleport_call (JObj [])
             (AgentTools.unknown_tool "teleport") [ "get_frequent_places" ]);
      [reflexivity | reflexivity |].
    apply dispatched_nil. }
  exact (proj1 (proj2
    (tool_round_appends_in_order Sample.World (Sample.create_asks [])
       Sample.get_system_prompt Sample.json_loads Sample.json_dumps
       Sample.servers 0
       (mkMessage None (Some [ Sample.places_call; Sample.teleport_call ]))
       Sample.agent [] [ "get_frequent_places" ]
       [ "get_frequent_places"; "agent_prompt.txt" ]
       [ tool "call_1" "success"; tool "call_2" "failure" ]
       "You are a map assistant."
       ltac:(discriminate) Hd eq_refl))).
Defined.

(** C3, as stated, fails: a payload that is not JSON makes [chat] raise;
    the history gets no tool turn for the request, and the request after
    it is never dispatched. *)
Lemma undecodable_arguments_are_fatal :
  chat Sample.World
    (Sample.create_asks [ Sample.broken_call; Sample.places_call ])
    Sample.get_system_prompt Sample.json_loads Sample.json_dumps
    Sample.servers 3 "Where do I go most?" (Sample.agent, [])
  = (Raise JSONDecodeError,
     (with_history Sample.agent
        [ user "Where do I go most?";
          assistant None (Some [ Sample.broken_call; Sample.places_call ]) ],
      [ "agent_prompt.txt"; "create" ])).
Proof. reflexivity. Qed.

Lemma undecodable_arguments_abort_witness :
  tool_loop Sample.World (Sample.create_asks [])
    Sample.get_system_prompt Sample.json_loads Sample.json_dumps Sample.servers
    1
    (mkMessage None
       (Some [ Sample.places_call; Sample.broken_call; Sample.teleport_call ]))
    (Sample.agent, [])
  = (Raise JSONDecodeError,
     (with_history Sample.agent
        [ assistant None
            (Some [ Sample.places_call; Sample.broken_call;
                    Sample.teleport_call ]);
          tool "call_1" "success" ],
      [ "get_frequent_places" ])).
Proof.
  assert (Hd : dispatched Sample.World Sample.json_loads Sample.json_dumps
                 Sample.servers [] [ Sample.places_call ]
                 [ tool "call_1" "success" ] [ "get_frequent_places" ]).
  { apply (dispatched_cons Sample.World Sample.json_loads Sample.json_dumps
             Sample.servers [] Sample.places_call (JObj []) Sample.ok
             [ "get_frequent_places" ]);
      [reflexivity | reflexivity | apply dispatched_nil]. }
  exact (undecodable_arguments_abort Sample.World (Sample.create_asks [])
           Sample.get_system_prompt Sample.json_loads Sample.json_dumps
           Sample.servers 0
           (mkMessage None
              (Some [ Sample.places_call; Sample.broken_call;
                      Sample.teleport_call ]))
           Sample.agent [] [ "get_frequent_places" ]
           [ Sample.places_call ] Sample.broken_call [ Sample.teleport_call ]
           [ tool "call_1" "success" ] JSONDecodeError
           eq_refl Hd eq_refl).
Defined.

(** C4, as stated, fails: after a failed request to the endpoint the
    history is not the one [chat] found; the user turn stays in it. *)
Lemma endpoint_failure_keeps_user_turn :
  let result :=
    chat Sample.World Sample.create_fails
      Sample.get_system_prompt Sample.json_loads Sample.json_dumps
      Sample.servers 3 "Hello" (Sample.agent, []) in
  result
  = (Raise (APIError "insufficient_quota"),
     (with_history Sample.agent [ user "Hello" ],
      [ "agent_prompt.txt"; "create" ])) /\
  conversation_history (fst (snd result)) <> conversation_history Sample.agent.
Proof.
  split.
  - reflexivity.
  - simpl. discriminate.
Qed.

Lemma endpoint_failure_keeps_turns_witness :
  chat Sample.World Sample.create_fails
    Sample.get_system_prompt Sample.json_loads Sample.json_dumps
    Sample.servers 3 "Hello" (Sample.agent, [])
  = (Raise (APIError "insufficient_quota"),
     (with_history Sample.agent [ user "Hello" ],
      [ "agent_prompt.txt"; "create" ])).
Proof.
  exact (proj1
    (endpoint_failure_keeps_turns Sample.World Sample.create_fails
       Sample.get_system_prompt Sample.json_loads Sample.json_dumps
       Sample.servers 3 "Hello" Sample.agent [])
    [ "agent_prompt.txt" ] [ "agent_prompt.txt"; "create" ]
    "You are a map assistant." (APIError "insufficient_quota")
    eq_refl eq_refl).
Defined.

Lemma chat_without_tool_calls_witness :
  chat Sample.World (Sample.create_asks [])
    Sample.get_system_prompt Sample.json_loads Sample.json_dumps
    Sample.servers 0 "Hello" (Sample.agent, [])
  = (Return "I apologize, but I couldn't generate a response.",
     (with_history Sample.agent
        [ user "Hello";
          assistant (Some "I apologize, but I couldn't generate a response.")
            None ],
      [ "agent_prompt.txt"; "create" ])).
Proof.
  exact (proj1
    (chat_without_tool_calls Sample.World (Sample.create_asks [])
       Sample.get_system_prompt Sample.json_loads Sample.json_dumps
       Sample.servers 0 "Hello" Sample.agent []
       [ "agent_prompt.txt" ] [ "agent_prompt.txt"; "create" ]
       "You are a map assistant." (mkMessage None (Some []))
       eq_refl eq_refl eq_refl)).
Defined.

(** The first scenario of the specification: one [get_frequent_places]
    request, then the answer; the history ends with four turns. *)
Example chat_scenario :
  chat Sample.World (Sample.create_asks [ Sample.places_call ])
    Sample.get_system_prompt Sample.json_loads Sample.json_dumps
    Sample.servers 3 "Where do I go most?" (Sample.agent, [])
  = (Return "Done.",
     (with_history Sample.agent
        [ user "Where do I go most?";
          assistant None (Some [ Sample.places_call ]);
          tool "call_1" "success";
          assistant (Some "Done.") None ],
      [ "agent_prompt.txt"; "create"; "get_frequent_places";
        "agent_prompt.txt"; "create" ])).
Proof. reflexivity. Qed.

End AgentFacts.

(* ================================================================== *)
(** * Further properties of the dispatcher *)

Module DispatcherMore.

Import AgentTools Schema.
Import DispatcherFacts.

(** X1: a payload that decodes to something other than an object (a list,
    a number, a string, null) makes every registered tool raise before any
    handler is called: [TypeError] from the first subscript, or
    [AttributeError] from the first [.get] for the two tools that require
    no key. *)
Theorem execute_tool_non_object (World : Type) (servers : Call -> M World json)
    (tool_name : string) (arguments : json) (w : World) :
  is_object arguments = false ->
  In tool_name registered_names ->
  execute_tool World servers tool_name arguments w
  = (Raise (if reads_with_get_first tool_name then AttributeError else TypeError),
     w).
Proof.
  intros Hobj Hreg. rewrite execute_tool_route.
  apply registered_cases in Hreg.
  destruct arguments; try discriminate Hobj;
    repeat (destruct Hreg as [Hreg | Hreg]); subst tool_name; reflexivity.
Qed.

Lemma execute_tool_non_object_witness :
  execute_tool Sample.World Sample.servers "summarize_travel_stats" (JArr []) []
  = (Raise AttributeError, []) /\
  execute_tool Sample.World Sample.servers "geocode" (JStr "Paris") []
  = (Raise TypeError, []).
Proof.
  split.
  - apply (execute_tool_non_object Sample.World Sample.servers
             "summarize_travel_stats" (JArr []) []).
    + reflexivity.
    + unfold registered_names. simpl. tauto.
  - apply (execute_tool_non_object Sample.World Sample.servers
             "geocode" (JStr "Paris") []).
    + reflexivity.
    + unfold registered_names. simpl. tauto.
Defined.

(** X2: [execute_tool] reads only the keys its schema names: two mappings
    that agree on them are routed alike, so keys the schema does not know
    are ignored without complaint. *)
Theorem route_ignores_other_keys (tool_name : string)
    (args args' : list (string * json)) :
  (forall k, In k (property_names tool_name) ->
             dict_get args k = dict_get args' k) ->
  route tool_name (JObj args) = route tool_name (JObj args').
Proof.
  intros Hsame.
  destruct (in_dec string_dec tool_name registered_names) as [Hreg | Hn].
  - apply registered_cases in Hreg.
    repeat (destruct Hreg as [Hreg | Hreg]); subst tool_name;
      cbn [route String.eqb Ascii.eqb Bool.eqb getitem get obind];
      cbn;
      repeat match goal with
      | |- context [dict_get args ?k] =>
          rewrite (Hsame k) by (cbn; tauto)
      end;
      reflexivity.
  - rewrite !(route_unregistered _ _ Hn). reflexivity.
Qed.

Lemma route_ignores_other_keys_witness :
  route "geocode" (JObj [ ("query", JStr "Paris"); ("limit", JInt 5) ])
  = route "geocode" (JObj [ ("query", JStr "Paris") ]).
Proof.
  apply (route_ignores_other_keys "geocode"
           [ ("query", JStr "Paris"); ("limit", JInt 5) ]
           [ ("query", JStr "Paris") ]).
  intros k Hk. cbn in Hk. destruct Hk as [Hk | []]. subst k. reflexivity.
Defined.

End DispatcherMore.

(* ================================================================== *)
(** * Properties of the counted routes and modes *)

Module AnalyticsFacts.

Import HistoryMapServer HistoryAnalytics.
Import HistoryFacts.

(** *** Counting with [increment] *)










(** *** Sorting by count *)






(** The sort is stable: the items of any one count keep their order. *)
Lemma sort_counts_stable (c : Z) (l : list (string * Z)) :
  filter (fun x => Z.eqb (snd x) c) (sort_counts l)
  = filter (fun x => Z.eqb (snd x) c) l.
Proof.
  unfold sort_counts. induction l as [| x rest IH]; simpl; [reflexivity |].
  rewrite <- IH. clear IH.
  induction (fold_right insert_count [] rest) as [| y sorted IH]; simpl.
  - reflexivity.
  - destruct (Z.ltb_spec (snd x) (snd y)) as [Hlt | Hge]; simpl; [| reflexivity].
    rewrite IH.
    destruct (Z.eqb_spec (snd x) c) as [Ex | Nx];
      destruct (Z.eqb_spec (snd y) c) as [Ey | Ny]; try reflexivity.
    lia.
Qed.



(** *** The trips of a route *)




(** *** A dict keeps its keys in the order of their first insertion *)


Lemma keys_visit_order (key : string) (p : Place) (pv : list (string * Visits)) :
  (In key (map fst pv) /\ map fst (visit key p pv) = map fst pv) \/
  (~ In key (map fst pv) /\ map fst (visit key p pv) = map fst pv ++ [ key ]).
Proof.
  induction pv as [| [k d] rest IH]; simpl.
  - right. split; [tauto | reflexivity].
  - destruct (String.eqb_spec k key) as [E | N]; simpl.
    + left. split; [left; exact E | reflexivity].
    + destruct IH as [[Hin He] | [Hn He]].
      * left. split; [right; exact Hin | rewrite He; reflexivity].
      * right. split; [| rewrite He; reflexivity].
        intros [H | H]; contradiction.
Qed.

Section FirstInsertion.

Context {A D : Type}.
Variable key : A -> string.
Variable step : list (string * D) -> A -> list (string * D).

Hypothesis step_keys :
  forall (acc : list (string * D)) (x : A),
    (In (key x) (map fst acc) /\ map fst (step acc x) = map fst acc) \/
    (~ In (key x) (map fst acc) /\
     map fst (step acc x) = map fst acc ++ [ key x ]).

(** Every item has left its key. *)
Lemma fold_keys_seen (items : list A) :
  forall y, In y items -> In (key y) (map fst (fold_left step items [])).
Proof.
  induction items as [| x items IH] using rev_ind; intros y Hy.
  - destruct Hy.
  - rewrite fold_left_app. simpl.
    apply in_app_or in Hy.
    destruct (step_keys (fold_left step items []) x) as [[Hin He] | [Hn He]];
      rewrite He.
    + destruct Hy as [Hy | [Hy | []]]; [apply IH; exact Hy | subst y; exact Hin].
    + apply in_or_app.
      destruct Hy as [Hy | [Hy | []]];
        [left; apply IH; exact Hy | right; left; subst y; reflexivity].
Qed.

(** A key of the dict was inserted by an item before which only the keys
    that stand before it had been seen. *)
Lemma fold_keys_order (items : list A) :
  forall (b : list string) (k : string) (a : list string),
    map fst (fold_left step items []) = b ++ k :: a ->
    exists (pre : list A) (x : A) (post : list A),
      items = pre ++ x :: post /\ key x = k /\
      forall y, In y pre -> In (key y) b.
Proof.
  induction items as [| x items IH] using rev_ind; intros b k a Hkeys.
  - simpl in Hkeys. destruct b; discriminate Hkeys.
  - rewrite fold_left_app in Hkeys. simpl in Hkeys.
    destruct (step_keys (fold_left step items []) x) as [[Hin He] | [Hn He]];
      rewrite He in Hkeys.
    + destruct (IH b k a Hkeys) as [pre [x0 [post [Hi [Hk Hpre]]]]].
      exists pre, x0, (post ++ [ x ]). split; [| split; assumption].
      rewrite Hi, <- app_assoc. reflexivity.
    + destruct a as [| z a _] using rev_ind.
      * apply app_inj_tail in Hkeys. destruct Hkeys as [Hb Hk].
        exists items, x, []. split; [reflexivity | split; [exact Hk |]].
        intros y Hy. rewrite <- Hb. apply fold_keys_seen. exact Hy.
      * change (b ++ k :: a ++ [ z ]) with (b ++ (k :: a) ++ [ z ]) in Hkeys.
        rewrite app_assoc in Hkeys.
        apply app_inj_tail in Hkeys. destruct Hkeys as [Hb _].
        destruct (IH b k a Hb) as [pre [x0 [post [Hi [Hk Hpre]]]]].
        exists pre, x0, (post ++ [ x ]). split; [| split; assumption].
        rewrite Hi, <- app_assoc. reflexivity.
Qed.

End FirstInsertion.


Lemma count_visits_order (trips : list Trip)
    (b : list string) (k : string) (a : list string) :
  map fst (count_visits trips) = b ++ k :: a ->
  exists (pre : list Place) (x : Place) (post : list Place),
    endpoints trips = pre ++ x :: post /\ place_key x = k /\
    forall y, In y pre -> In (place_key y) b.
Proof.
  rewrite count_visits_endpoints.
  apply (fold_keys_order place_key (fun pv p => visit (place_key p) p pv)).
  intros acc x. apply keys_visit_order.
Qed.


(** *** The order and the totals of the frequent places *)


Lemma insert_desc_perm (x : FrequentPlace) (l : list FrequentPlace) :
  Permutation (insert_desc x l) (x :: l).
Proof.
  induction l as [| y rest IH]; simpl.
  - apply Permutation_refl.
  - destruct (Z.ltb (visit_count x) (visit_count y)).
    + eapply Permutation_trans; [apply perm_skip; exact IH | apply perm_swap].
    + apply Permutation_refl.
Qed.

Lemma sort_desc_perm (l : list FrequentPlace) : Permutation (sort_desc l) l.
Proof.
  unfold sort_desc. induction l as [| x rest IH]; simpl.
  - apply Permutation_refl.
  - eapply Permutation_trans; [apply insert_desc_perm | apply perm_skip; exact IH].
Qed.

Lemma insert_desc_sorted (x : FrequentPlace) (l : list FrequentPlace) :
  StronglySorted by_visits_desc l -> StronglySorted by_visits_desc (insert_desc x l).
Proof.
  induction l as [| y rest IH]; simpl; intros Hs.
  - constructor; constructor.
  - apply StronglySorted_inv in Hs. destruct Hs as [Hrest Hall].
    destruct (Z.ltb_spec (visit_count x) (visit_count y)) as [Hlt | Hge].
    + constructor; [apply IH; exact Hrest |].
      apply Forall_forall. intros z Hz.
      apply (Permutation_in _ (insert_desc_perm x rest)) in Hz.
      destruct Hz as [E | Hz].
      * subst z. unfold by_visits_desc. lia.
      * rewrite Forall_forall in Hall. apply Hall. exact Hz.
    + constructor; [constructor; assumption |].
      constructor; [unfold by_visits_desc; lia |].
      rewrite Forall_forall in Hall |- *. intros z Hz.
      specialize (Hall z Hz). unfold by_visits_desc in *. lia.
Qed.

Lemma sort_desc_sorted (l : list FrequentPlace) :
  StronglySorted by_visits_desc (sort_desc l).
Proof.
  unfold sort_desc. induction l as [| x rest IH]; simpl.
  - constructor.
  - apply insert_desc_sorted. exact IH.
Qed.

Lemma sort_desc_stable (c : Z) (l : list FrequentPlace) :
  filter (fun p => Z.eqb (visit_count p) c) (sort_desc l)
  = filter (fun p => Z.eqb (visit_count p) c) l.
Proof.
  unfold sort_desc. induction l as [| x rest IH]; simpl; [reflexivity |].
  rewrite <- IH. clear IH.
  induction (fold_right insert_desc [] rest) as [| y sorted IH]; simpl.
  - reflexivity.
  - destruct (Z.ltb_spec (visit_count x) (visit_count y)) as [Hlt | Hge]; simpl;
      [| reflexivity].
    rewrite IH.
    destruct (Z.eqb_spec (visit_count x) c) as [Ex | Nx];
      destruct (Z.eqb_spec (visit_count y) c) as [Ey | Ny]; try reflexivity.
    lia.
Qed.

Lemma NoDup_map_filter {A B} (f : A -> B) (keep : A -> bool) (l : list A) :
  NoDup (map f l) -> NoDup (map f (filter keep l)).
Proof.
  induction l as [| x rest IH]; simpl; intros Hnd.
  - constructor.
  - inversion Hnd as [| y l' Hnot Hrest]; subst.
    destruct (keep x); simpl; [| apply IH; exact Hrest].
    constructor; [| apply IH; exact Hrest].
    intros Hin. apply Hnot. apply in_map_iff in Hin.
    destruct Hin as [z [Hz Hin]]. apply filter_In in Hin.
    apply in_map_iff. exists z. split; [exact Hz | apply Hin].
Qed.

Lemma counted_entry (pv : list (string * Visits)) (seen : list Place)
    (k : string) (d : Visits) :
  counted pv seen -> In (k, d) pv ->
  count d = visits_of k seen /\ (0 < count d)%Z /\ coords_key (coords d) = k.
Proof.
  intros [Hnd Hc] Hin. apply (HistoryFacts.In_dict_get _ _ _ Hnd) in Hin.
  specialize (Hc k). rewrite Hin in Hc. exact Hc.
Qed.

Lemma total_visits_perm (l l' : list FrequentPlace) :
  Permutation l l' -> total_visits l = total_visits l'.
Proof.
  unfold total_visits. induction 1; simpl; lia.
Qed.

Lemma sum_counts_visit (key : string) (p : Place) (pv : list (string * Visits)) :
  total_visits (map frequent_place (map snd (visit key p pv)))
  = (total_visits (map frequent_place (map snd pv)) + 1)%Z.
Proof.
  unfold total_visits. induction pv as [| [k d] rest IH]; simpl.
  - reflexivity.
  - destruct (String.eqb k key); simpl; [lia | rewrite IH; lia].
Qed.

Lemma sum_counts_visit_places (places : list Place) :
  forall pv : list (string * Visits),
    total_visits (map frequent_place (map snd (visit_places places pv)))
    = (total_visits (map frequent_place (map snd pv))
       + Z.of_nat (length places))%Z.
Proof.
  unfold visit_places.
  induction places as [| p rest IH]; intros pv; simpl fold_left.
  - simpl. lia.
  - rewrite IH, sum_counts_visit. simpl length. lia.
Qed.

Lemma length_endpoints (trips : list Trip) :
  length (endpoints trips) = (2 * length trips)%nat.
Proof.
  unfold endpoints. induction trips as [| t rest IH]; simpl; [reflexivity | lia].
Qed.

Lemma total_visits_filter_le (keep : Visits -> bool) (l : list Visits) :
  (forall d, In d l -> (0 < count d)%Z) ->
  (total_visits (map frequent_place (filter keep l))
   <= total_visits (map frequent_place l))%Z.
Proof.
  unfold total_visits. induction l as [| d rest IH]; simpl; intros Hpos.
  - lia.
  - assert (Hd : (0 < count d)%Z) by (apply Hpos; left; reflexivity).
    assert (IH' := IH (fun x Hx => Hpos x (or_intror Hx))).
    destruct (keep d); simpl; lia.
Qed.

Lemma filter_split {A} (keep : A -> bool) (l : list A) :
  forall (f1 : list A) (x : A) (f2 : list A),
    filter keep l = f1 ++ x :: f2 ->
    exists l1 l2, l = l1 ++ x :: l2 /\ filter keep l2 = f2.
Proof.
  induction l as [| a l IH]; intros f1 x f2 H; simpl in H.
  - destruct f1; discriminate H.
  - destruct (keep a) eqn:Ka.
    + destruct f1 as [| b f1]; simpl in H.
      * injection H as Hx Hf. subst a. exists [], l. split; [reflexivity | exact Hf].
      * injection H as _ Hf. destruct (IH _ _ _ Hf) as [l1 [l2 [Hl Hf2]]].
        exists (a :: l1), l2. split; [rewrite Hl; reflexivity | exact Hf2].
    + destruct (IH _ _ _ H) as [l1 [l2 [Hl Hf2]]].
      exists (a :: l1), l2. split; [rewrite Hl; reflexivity | exact Hf2].
Qed.

(** Two elements that a filter keeps stand in the list in the order in
    which they stand in the result. *)
Lemma filter_order {A} (keep : A -> bool) (l f1 f2 f3 : list A) (x y : A) :
  filter keep l = f1 ++ x :: f2 ++ y :: f3 ->
  exists l1 l2 l3, l = l1 ++ x :: l2 ++ y :: l3.
Proof.
  intros H. destruct (filter_split keep l _ _ _ H) as [l1 [l' [Hl Hf]]].
  destruct (filter_split keep l' _ _ _ Hf) as [l2 [l3 [Hl' _]]].
  exists l1, l2, l3. rewrite Hl, Hl'. reflexivity.
Qed.

Lemma map_order {A B} (f : A -> B) (l : list A) (m1 m2 m3 : list B) (x y : B) :
  map f l = m1 ++ x :: m2 ++ y :: m3 ->
  exists l1 a l2 b l3, l = l1 ++ a :: l2 ++ b :: l3 /\ f a = x /\ f b = y.
Proof.
  intros H. apply map_eq_app in H. destruct H as [l1 [r [Hl [_ Hr]]]].
  apply map_eq_cons in Hr. destruct Hr as [a [r' [Hr [Ha Hr']]]].
  apply map_eq_app in Hr'. destruct Hr' as [l2 [r'' [Hr' [_ Hr'']]]].
  apply map_eq_cons in Hr''. destruct Hr'' as [b [l3 [Hr'' [Hb _]]]].
  exists l1, a, l2, b, l3. subst. auto.
Qed.

Lemma visits_of_positive (x : Place) (places : list Place) :
  In x places -> (0 < visits_of (place_key x) places)%Z.
Proof.
  assert (Hnn : forall k l, (0 <= visits_of k l)%Z).
  { intros k l. induction l as [| p l IH]; simpl; [lia |].
    destruct (String.eqb (place_key p) k); lia. }
  induction places as [| p rest IH]; simpl; intros Hin.
  - destruct Hin.
  - pose proof (Hnn (place_key x) rest) as Hrest.
    destruct Hin as [E | Hin].
    + subst p. rewrite String.eqb_refl. lia.
    + specialize (IH Hin). destruct (String.eqb (place_key p) (place_key x)); lia.
Qed.

(** Two listed places with the same count stand in the order in which
    their keys stand in the dict. *)
Lemma frequent_places_dict_order (filtered_trips : list Trip) (min_visits : Z)
    (l1 l2 l3 : list FrequentPlace) (p q : FrequentPlace) :
  frequent_places filtered_trips min_visits = l1 ++ p :: l2 ++ q :: l3 ->
  visit_count p = visit_count q ->
  exists b m a,
    map fst (count_visits filtered_trips)
    = b ++ fp_key p :: m ++ fp_key q :: a.
Proof.
  intros Hplaces Hsame.
  pose proof (sort_desc_stable (visit_count p)
                (qualifying filtered_trips min_visits)) as Hstable.
  change (sort_desc (qualifying filtered_trips min_visits))
    with (frequent_places filtered_trips min_visits) in Hstable.
  rewrite Hplaces in Hstable.
  rewrite filter_app in Hstable. simpl in Hstable.
  rewrite Z.eqb_refl in Hstable.
  rewrite filter_app in Hstable. simpl in Hstable.
  rewrite <- Hsame, Z.eqb_refl in Hstable.
  symmetry in Hstable.
  apply filter_order in Hstable. destruct Hstable as [q1 [q2 [q3 Hq]]].
  unfold qualifying in Hq. rewrite filter_map_swap, map_map in Hq.
  apply map_order in Hq.
  destruct Hq as [e1 [[kp dp] [e2 [[kq dq] [e3 [He [Hp Hq]]]]]]].
  simpl in Hp, Hq.
  pose proof He as Hin.
  apply filter_order in He. destruct He as [c1 [c2 [c3 Hc]]].
  pose proof (counted_count_visits filtered_trips) as Hcounted.
  assert (Hkp : fp_key p = kp).
  { subst p. apply (counted_entry _ _ _ dp Hcounted).
    rewrite Hc. apply in_or_app. right. left. reflexivity. }
  assert (Hkq : fp_key q = kq).
  { subst q. apply (counted_entry _ _ _ dq Hcounted).
    rewrite Hc. apply in_or_app. right. right.
    apply in_or_app. right. left. reflexivity. }
  exists (map fst c1), (map fst c2), (map fst c3).
  rewrite Hc, map_app. simpl. rewrite map_app. simpl.
  rewrite Hkp, Hkq. reflexivity.
Qed.

(** X6: the places of [get_frequent_places] are the places that the trips
    of the window visit at least [min_visits] times, each once and with
    the number of its visits; they stand in descending order of that
    number, and of two places with the same number the one visited first
    stands first. *)
Theorem frequent_places_sorted_stable (filtered_trips : list Trip) (min_visits : Z) :
  let places := frequent_places filtered_trips min_visits in
  let visited := endpoints filtered_trips in
  NoDup (map fp_key places) /\
  (forall p, In p places ->
             visit_count p = visits_of (fp_key p) visited /\
             (min_visits <= visit_count p)%Z) /\
  (forall x, In x visited ->
             (min_visits <= visits_of (place_key x) visited)%Z ->
             exists p, In p places /\ fp_key p = place_key x) /\
  StronglySorted by_visits_desc places /\
  (forall l1 p l2 q l3,
     places = l1 ++ p :: l2 ++ q :: l3 ->
     visit_count p = visit_count q ->
     exists (earlier : list Place) (x : Place) (later : list Place),
       visited = earlier ++ x :: later /\
       place_key x = fp_key p /\
       forall y, In y earlier -> place_key y <> fp_key q).
Proof.
  intros places visited.
  pose proof (counted_count_visits filtered_trips) as Hcounted.
  split; [| split; [| split; [| split]]].
  - subst places.
    change (frequent_places filtered_trips min_visits)
      with (sort_desc (qualifying filtered_trips min_visits)).
    apply (Permutation_NoDup
             (l := map fp_key (qualifying filtered_trips min_visits))).
    + apply Permutation_map. apply Permutation_sym. apply sort_desc_perm.
    + unfold qualifying. rewrite filter_map_swap, !map_map.
      rewrite (map_ext_in _ fst).
      * apply NoDup_map_filter. apply Hcounted.
      * intros [k d] Hin. apply filter_In in Hin. destruct Hin as [Hin _].
        destruct (counted_entry _ _ _ _ Hcounted Hin) as [_ [_ Hkey]].
        exact Hkey.
  - intros p Hp. apply In_frequent_places in Hp.
    destruct Hp as [d [Hget [Hp Hge]]].
    destruct Hcounted as [_ Hcount].
    specialize (Hcount (fp_key p)). rewrite Hget in Hcount.
    destruct Hcount as [Hc _]. subst p. simpl. split; [exact Hc | exact Hge].
  - intros x Hx Hge.
    pose proof (visits_of_positive x visited Hx) as Hpos.
    destruct Hcounted as [_ Hcount]. specialize (Hcount (place_key x)).
    destruct (dict_get (count_visits filtered_trips) (place_key x))
      as [d |] eqn:Hget.
    + destruct Hcount as [Hc [_ Hkey]].
      assert (Hfp : fp_key (frequent_place d) = place_key x) by exact Hkey.
      exists (frequent_place d). split; [| exact Hfp].
      apply In_frequent_places. exists d. rewrite Hfp.
      split; [exact Hget | split; [reflexivity |]].
      fold visited in Hc. lia.
    + fold visited in Hcount. lia.
  - apply sort_desc_sorted.
  - intros l1 p l2 q l3 Hplaces Hsame.
    destruct (frequent_places_dict_order _ _ _ _ _ _ _ Hplaces Hsame)
      as [b [m [a Hkeys]]].
    destruct (count_visits_order _ _ _ _ Hkeys)
      as [earlier [x [later [Hv [Hk Hearlier]]]]].
    exists earlier, x, later. split; [exact Hv | split; [exact Hk |]].
    intros y Hy Heq. specialize (Hearlier y Hy). rewrite Heq in Hearlier.
    destruct Hcounted as [Hnd _]. rewrite Hkeys in Hnd.
    replace (b ++ fp_key p :: m ++ fp_key q :: a)
      with ((b ++ fp_key p :: m) ++ fp_key q :: a) in Hnd
      by (rewrite <- app_assoc; reflexivity).
    apply NoDup_remove_2 in Hnd. apply Hnd.
    apply in_or_app. left. apply in_or_app. left. exact Hearlier.
Qed.

(** X7: each trip of the window counts one visit at its origin and one at
    its destination, so the visit counts of the listed places never add
    up to more than twice the number of trips, and add up to exactly that
    when [min_visits] is at most one. *)
Theorem total_visits_twice_the_trips (filtered_trips : list Trip) (min_visits : Z) :
  (total_visits (frequent_places filtered_trips min_visits)
   <= 2 * Z.of_nat (length filtered_trips))%Z /\
  ((min_visits <= 1)%Z ->
   total_visits (frequent_places filtered_trips min_visits)
   = (2 * Z.of_nat (length filtered_trips))%Z).
Proof.
  pose proof (counted_count_visits filtered_trips) as Hcounted.
  assert (Hall : total_visits
                   (map frequent_place (map snd (count_visits filtered_trips)))
                 = (2 * Z.of_nat (length filtered_trips))%Z).
  { rewrite count_visits_endpoints, sum_counts_visit_places, length_endpoints.
    change (total_visits (map frequent_place (map snd []))) with 0%Z. lia. }
  assert (Hpos : forall d, In d (map snd (count_visits filtered_trips)) ->
                           (0 < count d)%Z).
  { intros d Hd. apply in_map_iff in Hd. destruct Hd as [[k d'] [E Hin]].
    simpl in E. subst d'.
    destruct (counted_entry _ _ _ _ Hcounted Hin) as [_ [H _]]. exact H. }
  change (frequent_places filtered_trips min_visits)
    with (sort_desc (qualifying filtered_trips min_visits)).
  rewrite (total_visits_perm _ _ (sort_desc_perm _)). unfold qualifying.
  split.
  - rewrite <- Hall. apply total_visits_filter_le. exact Hpos.
  - intros Hmin. rewrite <- Hall. f_equal. f_equal.
    apply forallb_filter_id. apply forallb_forall. intros d Hd.
    apply Z.geb_le. specialize (Hpos d Hd). lia.
Qed.

Lemma total_visits_twice_the_trips_witness :
  total_visits (frequent_places sample_trips 0)
  = (2 * Z.of_nat (length sample_trips))%Z.
Proof.
  apply (proj2 (total_visits_twice_the_trips sample_trips 0)).
  discriminate.
Defined.

(** *** The date window *)

Lemma leb_same (s : string) : String.leb s s = true.
Proof.
  destruct (String.leb_total s s) as [H | H]; exact H.
Qed.

(** X8: the date filter keeps, in file order, the trips whose date is not
    before the start date and not after the end date, both compared as
    text and both inclusive; a bound that is missing or empty does not
    restrict, and filtering a filtered list again changes nothing. *)
Theorem filter_trips_window (trip_data : list Trip)
    (start_date end_date : option string) :
  filter_trips trip_data start_date end_date
  = filter (in_windowb start_date end_date) trip_data /\
  (forall t, in_windowb start_date end_date t = true <->
             in_window start_date end_date t) /\
  filter_trips trip_data (Some "") end_date
  = filter_trips trip_data None end_date /\
  filter_trips trip_data start_date (Some "")
  = filter_trips trip_data start_date None /\
  filter_trips trip_data None None = trip_data /\
  filter_trips (filter_trips trip_data start_date end_date) start_date end_date
  = filter_trips trip_data start_date end_date /\
  (forall t, In t trip_data ->
             In t (filter_trips trip_data (Some (date t)) (Some (date t)))).
Proof.
  split; [apply filter_trips_one_pass | split; [| split; [| split; [| split; [| split]]]]].
  - intros t. unfold in_windowb, in_window. rewrite andb_true_iff.
    destruct (truthy start_date), (truthy end_date); intuition congruence.
  - reflexivity.
  - reflexivity.
  - reflexivity.
  - rewrite !filter_trips_one_pass, filter_and.
    apply filter_ext. intros t. apply andb_diag.
  - intros t Hin. apply HistoryFacts.filter_trips_spec. split; [exact Hin |].
    unfold in_window. simpl text. split; intros _; apply leb_same.
Qed.

(** *** The reported time window *)

Lemma sorted_filter {A} (R : A -> A -> Prop) (keep : A -> bool) (l : list A) :
  StronglySorted R l -> StronglySorted R (filter keep l).
Proof.
  induction 1 as [| x rest Hs IH Hall]; simpl.
  - constructor.
  - destruct (keep x); [| exact IH].
    constructor; [exact IH |].
    rewrite Forall_forall in Hall |- *. intros y Hy.
    apply filter_In in Hy. apply Hall. apply Hy.
Qed.

Lemma sorted_last {A} (R : A -> A -> Prop) (l : list A) (d : A) :
  StronglySorted R l ->
  forall t, In t l -> t = last l d \/ R t (last l d).
Proof.
  induction 1 as [| x rest Hs IH Hall]; intros t Hin.
  - destruct Hin.
  - destruct rest as [| y rest'].
    + destruct Hin as [E | []]. left. symmetry. exact E.
    + change (last (x :: y :: rest') d) with (last (y :: rest') d).
      destruct Hin as [E | Hin].
      * subst t. right. rewrite Forall_forall in Hall. apply Hall.
        clear. generalize y. induction rest' as [| z r IHr]; intros y0.
        -- left. reflexivity.
        -- right. apply IHr.
      * apply IH. exact Hin.
Qed.

(** X9: the window that [get_frequent_places] reports takes a missing
    start date from the last trip of the window and a missing end date
    from its first trip.  When the file is written newest trip first, the
    dates of all the trips counted lie within the reported window. *)
Theorem time_window_encloses_trips (trip_data : list Trip)
    (start_date end_date : option string) (min_visits : Z) :
  StronglySorted newest_first trip_data ->
  let filtered := filter_trips trip_data start_date end_date in
  field (get_frequent_places trip_data start_date end_date min_visits)
    "time_window"
  = Some (JObj [ ("start_date", window_start start_date filtered);
                 ("end_date", window_end end_date filtered) ]) /\
  forall t, In t filtered ->
    exists first last_date : string,
      window_start start_date filtered = JStr first /\
      window_end end_date filtered = JStr last_date /\
      String.leb first (date t) = true /\
      String.leb (date t) last_date = true.
Proof.
  intros Hsorted filtered. split; [reflexivity |].
  intros t Hin.
  assert (Hw : in_window start_date end_date t)
    by (apply HistoryFacts.filter_trips_spec in Hin; apply Hin).
  assert (Hs : StronglySorted newest_first filtered).
  { unfold filtered. rewrite filter_trips_one_pass.
    apply sorted_filter. exact Hsorted. }
  destruct Hw as [Hstart Hend].
  destruct filtered as [| head rest] eqn:E; [destruct Hin |].
  unfold window_start, window_end.
  exists (if truthy start_date then text start_date
          else date (last (head :: rest) head)),
         (if truthy end_date then text end_date else date head).
  split; [destruct (truthy start_date); reflexivity |].
  split; [destruct (truthy end_date); reflexivity |].
  split.
  - destruct (truthy start_date); [apply Hstart; reflexivity |].
    destruct (sorted_last _ _ head Hs t Hin) as [Et | Hr].
    + rewrite <- Et. apply leb_same.
    + exact Hr.
  - destruct (truthy end_date); [apply Hend; reflexivity |].
    destruct Hin as [Et | Hin].
    + subst t. apply leb_same.
    + apply StronglySorted_inv in Hs. destruct Hs as [_ Hall].
      rewrite Forall_forall in Hall. exact (Hall t Hin).
Qed.

Lemma time_window_encloses_trips_witness :
  field (get_frequent_places sample_trips None None 3) "time_window"
  = Some (JObj [ ("start_date", JStr "2025-03-01");
                 ("end_date", JStr "2025-03-03") ]).
Proof.
  assert (Hs : StronglySorted newest_first sample_trips).
  { unfold sample_trips.
    repeat (constructor; [| repeat (constructor; try reflexivity) ]).
    constructor. }
  exact (proj1 (time_window_encloses_trips sample_trips None None 3 Hs)).
Defined.

End AnalyticsFacts.

(* ================================================================== *)
(** * Properties of the core map server *)

Module CoreFacts.

Import AgentTools CoreMapReplies.
Import HistoryAnalytics.

(** X10: the id that [get_place_details] sends to the lookup service is
    the place id itself when that starts with N, W or R, and the place id
    with an N put in front otherwise (an empty id or a lower-case prefix
    included); so it always starts with one of the three letters, and an
    id in that form is sent as it is. *)
Theorem osm_ids_normal_form (place_id : string) :
  let known := orb (startswith place_id "N")
                 (orb (startswith place_id "W") (startswith place_id "R")) in
  osm_ids place_id = (if known then place_id else String "N" place_id) /\
  osm_ids (osm_ids place_id) = osm_ids place_id /\
  orb (startswith (osm_ids place_id) "N")
    (orb (startswith (osm_ids place_id) "W") (startswith (osm_ids place_id) "R"))
  = true.
Proof.
  assert (Hform : forall p,
            osm_ids p =
            if orb (startswith p "N") (orb (startswith p "W") (startswith p "R"))
            then p else String "N" p).
  { intros p. unfold osm_ids, osm_type_and_id.
    destruct p as [| c s]; [reflexivity |]. unfold startswith.
    destruct (Ascii.eqb_spec c "N") as [E | _]; [subst c; reflexivity |].
    destruct (Ascii.eqb_spec c "W") as [E | _]; [subst c; reflexivity |].
    destruct (Ascii.eqb_spec c "R") as [E | _]; [subst c; reflexivity |].
    reflexivity. }
  intros known. subst known.
  assert (Hstart : orb (startswith (osm_ids place_id) "N")
                     (orb (startswith (osm_ids place_id) "W")
                        (startswith (osm_ids place_id) "R")) = true).
  { rewrite (Hform place_id).
    destruct (orb (startswith place_id "N")
                (orb (startswith place_id "W") (startswith place_id "R")))
      eqn:E; [exact E | reflexivity]. }
  split; [apply Hform | split; [| exact Hstart]].
  rewrite (Hform (osm_ids place_id)), Hstart. reflexivity.
Qed.


(** X12: a ["mode"] that is not a string (a number, null, a list) makes
    [get_route] raise [AttributeError] before its [try], and the error
    leaves [execute_tool] without any request to the routing service. *)
Theorem get_route_mode_not_a_string
    (lower : string -> string) (World : Type)
    (osrm_route : string -> json -> json -> json -> json -> json -> M World json)
    (others : Call -> M World json)
    (args : list (string * json)) (mode : json) (w : World) :
  first_missing args (required_keys "get_route") = None ->
  dict_get args "mode" = Some mode ->
  (forall s, mode <> JStr s) ->
  execute_tool World (CoreMapServer.servers lower World osrm_route others)
    "get_route" (JObj args) w
  = (Raise AttributeError, w).
Proof.
  intros Hreq Hmode Hnot.
  rewrite DispatcherFacts.execute_tool_route.
  revert Hreq.
  cbn [route String.eqb Ascii.eqb Bool.eqb getitem get obind]. cbn.
  rewrite Hmode.
  destruct (dict_get args "origin_lat"); [| discriminate].
  destruct (dict_get args "origin_lon"); [| discriminate].
  destruct (dict_get args "dest_lat"); [| discriminate].
  destruct (dict_get args "dest_lon"); [| discriminate].
  intros _. cbn.
  destruct mode; try reflexivity.
  exfalso. exact (Hnot s eq_refl).
Qed.

Lemma get_route_mode_not_a_string_witness :
  execute_tool Sample.World
    (CoreMapServer.servers CoreMapServer.ascii_lower Sample.World
       Sample.osrm_route Sample.servers)
    "get_route"
    (JObj [ ("origin_lat", JInt 48); ("origin_lon", JInt 2);
            ("dest_lat", JInt 49); ("dest_lon", JInt 3); ("mode", JNull) ]) []
  = (Raise AttributeError, []).
Proof.
  apply (get_route_mode_not_a_string CoreMapServer.ascii_lower Sample.World
           Sample.osrm_route Sample.servers
           [ ("origin_lat", JInt 48); ("origin_lon", JInt 2);
             ("dest_lat", JInt 49); ("dest_lon", JInt 3); ("mode", JNull) ]
           JNull []).
  - reflexivity.
  - reflexivity.
  - intros s H. discriminate H.
Defined.

End CoreFacts.

(* ================================================================== *)
(** * Properties of the air-quality report *)

Module WeatherFacts.

Import CoreMapReplies WeatherEnvironmentServer.
Import HistoryAnalytics.

(** X13: for an integer index the six categories split the integers into
    the bands up to 50, 51 to 100, 101 to 150, 151 to 200, 201 to 300 and
    above 300; each bound belongs to the band below it, and a negative
    index is Good. *)
Theorem aqi_category_bands (float_le : string -> Z -> bool) (aqi : Z) :
  exists c : AqiCategory,
    _get_aqi_category float_le (JInt aqi) = inr c /\
    (category c = "Good" <-> (aqi <= 50)%Z) /\
    (category c = "Moderate" <-> (50 < aqi <= 100)%Z) /\
    (category c = "Unhealthy for Sensitive Groups" <-> (100 < aqi <= 150)%Z) /\
    (category c = "Unhealthy" <-> (150 < aqi <= 200)%Z) /\
    (category c = "Very Unhealthy" <-> (200 < aqi <= 300)%Z) /\
    (category c = "Hazardous" <-> (300 < aqi)%Z).
Proof.
  unfold _get_aqi_category, le. cbn [attempt_bind].
  destruct (Z.leb_spec aqi 50);
    [| destruct (Z.leb_spec aqi 100);
       [| destruct (Z.leb_spec aqi 150);
          [| destruct (Z.leb_spec aqi 200);
             [| destruct (Z.leb_spec aqi 300)]]]];
    eexists; (split; [reflexivity |]); cbn [category good moderate
      unhealthy_for_sensitive unhealthy very_unhealthy hazardous];
    repeat split; intros; try lia; try discriminate.
Qed.



End WeatherFacts.

(* ================================================================== *)
(** * Properties of whole conversations *)

Module ConversationFacts.

Import Agent Transcript.
Import AgentFacts.

Lemma content_or_fallback_nonempty (c : option string) :
  content_or_fallback c <> ""%string.
Proof.
  destruct c as [[| ch s] |]; discriminate.
Qed.

Lemma rounds_app (l1 l2 : list Turn) :
  rounds l1 -> rounds l2 -> rounds (l1 ++ l2).
Proof.
  induction 1 as [| text calls texts rest Hne Hlen _ IH]; intros H2.
  - exact H2.
  - simpl. rewrite <- app_assoc. apply rounds_more; auto.
Qed.

Lemma length_tool_turns (calls : list ToolCall) (texts : list string) :
  length texts = length calls ->
  length (tool_turns calls texts) = length calls.
Proof.
  intros H. unfold tool_turns. rewrite length_map, length_combine. lia.
Qed.

Section Conversation.

Variable World : Type.
Variable create :
  option string -> option string -> list Turn -> list AgentTools.Tool ->
  M World Message.
Variable get_system_prompt : M World string.
Variable json_loads : string -> outcome json.
Variable json_dumps : json -> string.
Variable servers : AgentTools.Call -> M World json.

Abbreviation for_tool_calls := (for_tool_calls World json_loads json_dumps servers).
Abbreviation dispatched := (dispatched World json_loads json_dumps servers).
Abbreviation completion := (completion World create get_system_prompt).
Abbreviation tool_round :=
  (tool_round World create get_system_prompt json_loads json_dumps servers).
Abbreviation tool_loop :=
  (tool_loop World create get_system_prompt json_loads json_dumps servers).
Abbreviation chat :=
  (chat World create get_system_prompt json_loads json_dumps servers).

(** A [for] loop that ends normally has decoded and dispatched every
    request. *)
Lemma for_tool_calls_returns (calls : list ToolCall) :
  forall (a a' : MapAgent) (w w' : World),
    for_tool_calls calls (a, w) = (Return tt, (a', w')) ->
    exists turns : list Turn,
      dispatched w calls turns w' /\
      a' = with_history a (conversation_history a ++ turns).
Proof.
  induction calls as [| tc rest IH]; intros a a' w w'; simpl.
  - unfold ret. intros H. inversion H; subst. exists []. split.
    + constructor.
    + rewrite app_nil_r, with_history_same. reflexivity.
  - unfold bind, pure, outside, append. simpl.
    destruct (json_loads (function_arguments tc)) as [args | e |] eqn:Hloads;
      try discriminate.
    destruct (AgentTools.execute_tool World servers (function_name tc) args w)
      as [[resp | e |] w1] eqn:Hexec; simpl; try discriminate.
    intros H. apply IH in H. destruct H as [turns [Hd Ha]].
    exists (tool (id tc) (json_dumps resp) :: turns). split.
    + econstructor; eassumption.
    + rewrite Ha. simpl. rewrite <- app_assoc. reflexivity.
Qed.

Lemma tool_round_returns (m next : Message) (a a' : MapAgent) (w w' : World) :
  tool_round m (a, w) = (Return next, (a', w')) ->
  exists texts : list string,
    length texts = length (requested m) /\
    a' = with_history a
           (conversation_history a
            ++ assistant (content m) (Some (requested m))
               :: tool_turns (requested m) texts).
Proof.
  unfold Agent.tool_round, bind at 1 2. unfold append at 1. simpl.
  destruct (for_tool_calls (requested m)
              (with_history a
                 (conversation_history a
                  ++ [ assistant (content m) (Some (requested m)) ]), w))
    as [[[] | e |] [a1 w1]] eqn:Hfor; try discriminate.
  intros H. apply completion_keeps_agent in H. subst a'.
  apply for_tool_calls_returns in Hfor. destruct Hfor as [turns [Hd Ha]].
  destruct (dispatched_tool_turns _ _ _ _ _ _ _ _ Hd) as [texts [Hlen Ht]].
  exists texts. split; [exact Hlen |].
  rewrite Ha. subst turns. simpl. rewrite <- app_assoc. reflexivity.
Qed.

Lemma tool_loop_returns (fuel : nat) :
  forall (m : Message) (a a' : MapAgent) (w w' : World) (text : string),
    tool_loop fuel m (a, w) = (Return text, (a', w')) ->
    text <> ""%string /\
    exists middle : list Turn,
      rounds middle /\
      a' = with_history a
             (conversation_history a
              ++ middle ++ [ assistant (Some text) None ]).
Proof.
  induction fuel as [| fuel IH]; intros m a a' w w' text; simpl;
    destruct (requested m) as [| tc rest] eqn:Hreq.
  - unfold bind, append, ret. simpl. intros H. inversion H; subst. split.
    + apply content_or_fallback_nonempty.
    + exists []. split; [constructor | reflexivity].
  - discriminate.
  - unfold bind, append, ret. simpl. intros H. inversion H; subst. split.
    + apply content_or_fallback_nonempty.
    + exists []. split; [constructor | reflexivity].
  - unfold bind at 1.
    destruct (tool_round m (a, w)) as [[next | e |] [a1 w1]] eqn:Hround;
      try discriminate.
    intros H. apply IH in H. destruct H as [Htext [middle [Hm Ha]]].
    apply tool_round_returns in Hround. destruct Hround as [texts [Hlen Ha1]].
    split; [exact Htext |].
    exists (assistant (content m) (Some (requested m))
              :: tool_turns (requested m) texts ++ middle).
    split.
    + apply rounds_more; [rewrite Hreq; discriminate | exact Hlen | exact Hm].
    + rewrite Ha, Ha1. simpl. rewrite with_history_twice.
      rewrite <- !app_assoc. reflexivity.
Qed.

(** X15: when [chat] returns, the text it returns is not empty and is the
    last turn of the history, as an assistant turn without requests; what
    the call added before it is the user turn followed by whole rounds: an
    assistant turn with at least one request, then one tool turn per
    request, in order.  Nothing of the earlier history is changed. *)
Theorem chat_returns_whole_rounds (fuel : nat) (user_message text : string)
    (a a' : MapAgent) (w w' : World) :
  chat fuel user_message (a, w) = (Return text, (a', w')) ->
  text <> ""%string /\
  exists middle : list Turn,
    rounds middle /\
    a' = with_history a
           (conversation_history a
            ++ user user_message :: middle ++ [ assistant (Some text) None ]).
Proof.
  unfold Agent.chat, bind at 1 2. unfold append at 1. simpl.
  destruct (completion
              (with_history a (conversation_history a ++ [ user user_message ]), w))
    as [[m | e |] [a1 w1]] eqn:Hc; try discriminate.
  apply completion_keeps_agent in Hc. subst a1. intros H.
  apply tool_loop_returns in H. destruct H as [Htext [middle [Hm Ha]]].
  split; [exact Htext |]. exists middle. split; [exact Hm |].
  rewrite Ha. simpl. rewrite with_history_twice, <- app_assoc. reflexivity.
Qed.

Abbreviation insists :=
  (insists World create get_system_prompt json_loads json_dumps servers).

Lemma completion_insists (a : MapAgent) (w : World) :
  insists ->
  exists (m : Message) (w' : World),
    completion (a, w) = (Return m, (a, w')) /\
    requested m <> [] /\
    forall w0 : World, exists (turns : list Turn) (w1 : World),
        dispatched w0 (requested m) turns w1.
Proof.
  intros [Hp Hc]. destruct (Hp w) as [prompt [w1 Hp1]].
  destruct (Hc (client a) (model a) (messages prompt a) w1)
    as [m [w2 [Hm [Hne Hd]]]].
  exists m, w2. split; [| split; assumption].
  rewrite (completion_request World create get_system_prompt _ _ _ _ Hp1), Hm.
  reflexivity.
Qed.

Lemma tool_loop_insists (fuel : nat) :
  insists ->
  forall (m : Message) (a : MapAgent) (w : World),
    requested m <> [] ->
    (forall w0 : World, exists (turns : list Turn) (w1 : World),
        dispatched w0 (requested m) turns w1) ->
    fst (tool_loop fuel m (a, w)) = Unfinished /\
    length (conversation_history a) + 2 * fuel
    <= length (conversation_history (fst (snd (tool_loop fuel m (a, w))))).
Proof.
  intros Hins. induction fuel as [| fuel IH]; intros m a w Hne Hd.
  - simpl. destruct (requested m); [contradiction |]. simpl. split; [reflexivity | lia].
  - rewrite (tool_loop_requests _ _ _ _ _ _ _ _ _ Hne). unfold bind.
    destruct (Hd w) as [turns [w1 Hd1]].
    rewrite (tool_round_dispatched _ _ _ _ _ _ _ _ _ _ _ Hd1).
    destruct (completion_insists
                (with_history a
                   (conversation_history a
                    ++ assistant (content m) (Some (requested m)) :: turns))
                w1 Hins) as [next [w2 [Hc [Hne' Hd']]]].
    rewrite Hc.
    destruct (IH next
                (with_history a
                   (conversation_history a
                    ++ assistant (content m) (Some (requested m)) :: turns))
                w2 Hne' Hd') as [Hu Hl].
    split; [exact Hu |].
    destruct (dispatched_tool_turns _ _ _ _ _ _ _ _ Hd1) as [texts [Hlen Ht]].
    assert (Hturns : 1 <= length turns).
    { subst turns. rewrite (length_tool_turns _ _ Hlen).
      destruct (requested m); [contradiction | simpl; lia]. }
    simpl conversation_history in Hl. rewrite length_app in Hl. simpl in Hl.
    lia.
Qed.

(** X16: the [while] of [chat] has no limit on its rounds.  With a model
    that answers every request with tool calls that dispatch, no number of
    rounds makes [chat] return or raise, and each round leaves at least two
    more turns in the history. *)
Theorem chat_has_no_round_limit (fuel : nat) (user_message : string)
    (a : MapAgent) (w : World) :
  insists ->
  fst (chat fuel user_message (a, w)) = Unfinished /\
  length (conversation_history a) + 1 + 2 * fuel
  <= length (conversation_history (fst (snd (chat fuel user_message (a, w))))).
Proof.
  intros Hins.
  destruct (completion_insists
              (with_history a (conversation_history a ++ [ user user_message ]))
              w Hins) as [m [w1 [Hc [Hne Hd]]]].
  assert (E : chat fuel user_message (a, w)
              = tool_loop fuel m
                  (with_history a
                     (conversation_history a ++ [ user user_message ]), w1)).
  { unfold Agent.chat, bind. unfold append at 1. simpl.
    rewrite Hc. reflexivity. }
  rewrite E.
  destruct (tool_loop_insists fuel Hins m
              (with_history a (conversation_history a ++ [ user user_message ]))
              w1 Hne Hd) as [Hu Hl].
  split; [exact Hu |].
  simpl conversation_history in Hl. rewrite length_app in Hl. simpl in Hl. lia.
Qed.

End Conversation.

Lemma chat_returns_whole_rounds_witness :
  "Done."%string <> ""%string /\
  exists middle : list Turn,
    rounds middle /\
    with_history Sample.agent
      [ user "Where do I go most?";
        assistant None (Some [ Sample.places_call ]);
        tool "call_1" "success";
        assistant (Some "Done.") None ]
    = with_history Sample.agent
        (conversation_history Sample.agent
         ++ user "Where do I go most?"
            :: middle ++ [ assistant (Some "Done.") None ]).
Proof.
  apply (chat_returns_whole_rounds Sample.World
           (Sample.create_asks [ Sample.places_call ])
           Sample.get_system_prompt Sample.json_loads Sample.json_dumps
           Sample.servers 3 "Where do I go most?" "Done."
           Sample.agent _ []
           [ "agent_prompt.txt"; "create"; "get_frequent_places";
             "agent_prompt.txt"; "create" ]).
  reflexivity.
Defined.

Lemma chat_has_no_round_limit_witness :
  fst (chat Sample.World Sample.create_insists Sample.get_system_prompt
         Sample.json_loads Sample.json_dumps Sample.servers
         40 "Beam me up." (Sample.agent, []))
  = Unfinished /\
  length (conversation_history Sample.agent) + 1 + 2 * 40
  <= length (conversation_history
               (fst (snd (chat Sample.World Sample.create_insists
                            Sample.get_system_prompt Sample.json_loads
                            Sample.json_dumps Sample.servers
                            40 "Beam me up." (Sample.agent, []))))).
Proof.
  apply (chat_has_no_round_limit Sample.World Sample.create_insists
           Sample.get_system_prompt Sample.json_loads Sample.json_dumps
           Sample.servers 40 "Beam me up." Sample.agent []).
  split.
  - intros w. eexists. eexists. reflexivity.
  - intros c mo ms w. eexists. eexists. split; [reflexivity |].
    split; [discriminate |].
    intros w0. eexists. eexists.
    apply (dispatched_cons Sample.World Sample.json_loads Sample.json_dumps
             Sample.servers w0 Sample.teleport_call (JObj [])
             (AgentTools.unknown_tool "teleport") w0);
      [reflexivity | reflexivity | apply dispatched_nil].
Defined.

End ConversationFacts.

(* ================================================================== *)
(** * Properties of the interactive loop *)

Module SessionFacts.

Import Agent Session.
Import AgentFacts.

Section Loop.

Variable World : Type.
Variable create :
  option string -> option string -> list Turn -> list AgentTools.Tool ->
  M World Message.
Variable get_system_prompt : M World string.
Variable json_loads : string -> outcome json.
Variable json_dumps : json -> string.
Variable servers : AgentTools.Call -> M World json.
Variable strip : string -> string.
Variable lower : string -> string.
Variable core_close : M World unit.
Variable weather_close : M World unit.

Abbreviation chat :=
  (chat World create get_system_prompt json_loads json_dumps servers).
Abbreviation while_true :=
  (while_true World create get_system_prompt json_loads json_dumps servers
     strip lower).
Abbreviation finally := (finally World core_close weather_close).
Abbreviation main :=
  (main World create get_system_prompt json_loads json_dumps servers
     strip lower core_close weather_close).

(** Lines are read one after the other as long as the loop goes on. *)
Lemma while_true_app (fuel : nat) (pre rest : list string) :
  forall s : State World,
    while_true fuel (pre ++ rest) s
    = match while_true fuel pre s with
      | (EndOfInput, s1) => while_true fuel rest s1
      | r => r
      end.
Proof.
  induction pre as [| line pre IH]; intros s; simpl.
  - reflexivity.
  - destruct (lower (strip line) =? "exit")%string; [reflexivity |].
    destruct (lower (strip line) =? "reset")%string; [apply IH |].
    destruct (strip line =? "")%string; [apply IH |].
    destruct (chat fuel (strip line) s) as [[response | e |] s'];
      [apply IH | reflexivity | reflexivity].
Qed.

(** The loop changes nothing of the agent but its history. *)
Lemma while_true_settings (fuel : nat) (inputs : list string) :
  forall (s s' : State World) (r : ending),
    while_true fuel inputs s = (r, s') ->
    client (fst s') = client (fst s) /\
    model (fst s') = model (fst s) /\
    verbose (fst s') = verbose (fst s).
Proof.
  induction inputs as [| line rest IH]; intros s s' r; simpl.
  - intros H. inversion H. auto.
  - destruct (lower (strip line) =? "exit")%string.
    { intros H. inversion H. auto. }
    destruct (lower (strip line) =? "reset")%string.
    { intros H. apply IH in H. exact H. }
    destruct (strip line =? "")%string; [apply IH |].
    destruct s as [a w].
    destruct (chat fuel (strip line) (a, w)) as [o [a1 w1]] eqn:Hchat.
    destruct (chat_extends _ _ _ _ _ _ _ _ _ _ _ _ _ Hchat) as [suffix Ha].
    assert (Hs : client a1 = client a /\ model a1 = model a
                 /\ verbose a1 = verbose a).
    { subst a1. auto. }
    destruct o as [response | e |]; intros H.
    + apply IH in H. simpl in H. simpl.
      destruct H as [H1 [H2 H3]]. destruct Hs as [H4 [H5 H6]].
      repeat split; congruence.
    + inversion H; subst. exact Hs.
    + inversion H; subst. exact Hs.
Qed.


(** X18: after the line [reset] (in any case, with spaces around it) the
    session goes on as a new session would from the state of the outside
    reached: nothing said before the reset reaches the model again. *)
Theorem reset_starts_afresh (api_key model : option string)
    (fuel : nat) (pre rest : list string) (line : string) (w w1 : World)
    (agent a1 : MapAgent) :
  new_agent api_key model = Some agent ->
  while_true fuel pre (agent, w) = (EndOfInput, (a1, w1)) ->
  lower (strip line) = "reset"%string ->
  main api_key model fuel (pre ++ line :: rest) w
  = main api_key model fuel rest w1.
Proof.
  intros Hagent Hloop Hreset. unfold Session.main.
  rewrite Hagent, while_true_app, Hloop. simpl. rewrite Hreset. simpl.
  apply while_true_settings in Hloop. simpl in Hloop.
  destruct Hloop as [Hc [Hm Hv]].
  destruct api_key as [key |]; [| discriminate Hagent].
  injection Hagent as Hagent. subst agent. simpl in Hc, Hm, Hv.
  destruct a1 as [c m h v]. simpl in Hc, Hm, Hv. subst c m v.
  reflexivity.
Qed.

End Loop.


Lemma reset_starts_afresh_witness :
  main Sample.World (Sample.create_asks []) Sample.get_system_prompt
    Sample.json_loads Sample.json_dumps Sample.servers
    Sample.strip CoreMapServer.ascii_lower
    Sample.core_close Sample.weather_close
    (Some "sk-test") (Some "gpt-4o") 3
    ([ "Where is Byblos?" ] ++ " Reset  " :: [ "And Tyre?" ]) []
  = main Sample.World (Sample.create_asks []) Sample.get_system_prompt
      Sample.json_loads Sample.json_dumps Sample.servers
      Sample.strip CoreMapServer.ascii_lower
      Sample.core_close Sample.weather_close
      (Some "sk-test") (Some "gpt-4o") 3
      [ "And Tyre?" ] [ "agent_prompt.txt"; "create" ].
Proof.
  apply (reset_starts_afresh Sample.World (Sample.create_asks [])
           Sample.get_system_prompt Sample.json_loads Sample.json_dumps
           Sample.servers Sample.strip CoreMapServer.ascii_lower
           Sample.core_close Sample.weather_close
           (Some "sk-test") (Some "gpt-4o") 3
           [ "Where is Byblos?" ] [ "And Tyre?" ] " Reset  "
           [] [ "agent_prompt.txt"; "create" ]
           Sample.agent
           (mkMapAgent (Some "sk-test") (Some "gpt-4o")
              [ user "Where is Byblos?";
                assistant (Some "I apologize, but I couldn't generate a response.") None ]
              true));
    reflexivity.
Defined.

End SessionFacts.
